(** * sw-manager: dependency graph and image assembly

    A shallow embedding of [sw-manager.py]: the doit task graph built by
    [addDep] / [buildDepGraph], the command handlers, and the image
    assembly pipeline [makeImage] with the overlay applicator
    [applyFiles].

    Conventions of the embedding.
    - A workload configuration is a Python dict.  Keys the script tests
      with ['k' in config] are optional fields; keys it only ever indexes
      ([name], [bin], [distro], [builder], [workdir]) are plain fields.
      The value stored under ['initramfs'] is never read, only its
      presence is tested (and [main] only ever stores [True]), so that key
      is the boolean [initramfs].
    - An exception is a value of [Exn]; code that can raise returns [Res].
    - Everything the script does to the outside world (subprocesses, file
      copies, helper calls of [util]) is recorded in a log together with
      the answer of the environment. *)

From Stdlib Require Import Ascii String List Bool Arith Lia.
From stdpp Require Import base option list gmap strings.
Import ListNotations.
Open Scope string_scope.
Open Scope list_scope.

(** ** Exceptions and results *)

Inductive Exn : Type :=
| KeyError (key : string)
| ValueError (msg : string)
| TypeError
| OSError
| CalledProcessError
| HelperError
| SystemExit (msg : string).

Inductive Res (A : Type) : Type :=
| Ok (a : A)
| Raise (e : Exn).
Arguments Ok {A} a.
Arguments Raise {A} e.

(** [config[k]] on an optional key. *)
Definition getitem {A} (key : string) (o : option A) : Res A :=
  match o with
  | Some a => Ok a
  | None => Raise (KeyError key)
  end.

Definition res_bind {A B} (r : Res A) (k : A -> Res B) : Res B :=
  match r with
  | Ok a => k a
  | Raise e => Raise e
  end.

Declare Scope res_scope.
Delimit Scope res_scope with res.
Notation "'try!' x ':=' r 'in' k" := (res_bind r (fun x => k))
  (at level 10, x name, r at level 100, k at level 200) : res_scope.

(** ** Workload descriptors *)

Record FileSpec : Type := mkFileSpec { src : string; dst : string }.

Record RunSpec : Type := mkRunSpec {
  command : option string;
  path : option string
}.

#[warnings="-register-all"] Inductive Config : Type := mkConfig {
  name : string;
  bin : string;
  distro : string;
  builder : string;
  workdir : string;
  img : option string;
  base_img : option string;
  linux_config : option string;
  initramfs : bool;
  files : option (list FileSpec);
  host_init : option string;
  init : option string;
  runSpec : option RunSpec;
  cfg_file : option string;
  jobs : option (list (string * Config))
}.

(** [targetCfg['initramfs'] = True] and [j['initramfs'] = True]. *)
Definition set_initramfs (c : Config) : Config :=
  mkConfig (name c) (bin c) (distro c) (builder c) (workdir c) (img c)
           (base_img c) (linux_config c) true (files c) (host_init c)
           (init c) (runSpec c) (cfg_file c) (jobs c).

Definition set_jobs (c : Config) (js : option (list (string * Config))) : Config :=
  mkConfig (name c) (bin c) (distro c) (builder c) (workdir c) (img c)
           (base_img c) (linux_config c) (initramfs c) (files c) (host_init c)
           (init c) (runSpec c) (cfg_file c) js.

(** ** doit tasks *)

Inductive Action : Type :=
| ActMakeBin (config : Config) (with_initramfs : bool)
| ActMakeImage (config : Config)
| ActBuildBaseImage (bld : string).

(** A task dictionary.  The distro tasks carry no ['file_dep'] and no
    ['task_dep'] entry, which doit reads as empty; the workload tasks
    carry no ['uptodate'] entry. *)
Record Task : Type := mkTask {
  task_name : string;
  actions : list Action;
  targets : list string;
  file_dep : list string;
  task_dep : list string;
  uptodate : list string
}.

(** ** Constants and library functions of the host

    [mnt], [linux_dir], [jlevel] and [distros] come from [util]; the three
    functions stand for [os.path.normpath], [os.path.isdir] and
    [os.walk]. *)
Record Host : Type := mkHost {
  mnt : string;
  linux_dir : string;
  jlevel : string;
  distros : list string;
  normpath : string -> string;
  isdir : string -> bool;
  walk : string -> list (string * list string * list string)
}.

(** [os.path.join] on two components (posix). *)
Definition path_join (a b : string) : string :=
  match b with
  | String "/"%char _ => b
  | _ =>
    if String.eqb a "" then b
    else if String.eqb (substring (String.length a - 1) 1 a) "/" then a +:+ b
    else a +:+ "/" +:+ b
  end.

Definition opt_list {A} (o : option A) : list A :=
  match o with Some a => [a] | None => [] end.

Section Graph.
Variable host : Host.

(** The files one overlay source contributes to the image's file
    dependencies (lines 133-138). *)
Definition fSpec_deps (fSpec : FileSpec) : list string :=
  if isdir host (src fSpec) then
    flat_map (fun '(root, _, fs) => map (path_join root) fs) (walk host (src fSpec))
  else [src fSpec].

(** File and task dependencies of the image rule (lines 124-145). *)
Definition img_file_deps (config : Config) : list string :=
  opt_list (base_img config)
  ++ match files config with
     | Some fl => flat_map fSpec_deps fl
     | None => []
     end
  ++ opt_list (init config)
  ++ match runSpec config with
     | Some rs => opt_list (path rs)
     | None => []
     end
  ++ opt_list (cfg_file config).

Definition img_task_deps (config : Config) : list string :=
  opt_list (base_img config)
  ++ match init config with
     | Some _ => [bin config]
     | None => []
     end.

(** The three task dictionaries [addDep] appends. *)
Definition bin_rule (config : Config) : Task :=
  mkTask (bin config) [ActMakeBin config false] [bin config]
         (opt_list (linux_config config)) [] [].

Definition initramfs_rule (config : Config) (i : string) : Task :=
  mkTask (bin config +:+ "-initramfs") [ActMakeBin config true]
         [bin config +:+ "-initramfs"]
         ([i] ++ opt_list (linux_config config)) [i] [].

Definition img_rule (config : Config) (i : string) : Task :=
  mkTask i [ActMakeImage config] [i] (img_file_deps config) (img_task_deps config) [].

Definition addDep (workloads : list Task) (config : Config) : Res (list Task) :=
  (* rule for the binary *)
  let workloads := workloads ++ [bin_rule config] in
  (* rule for the initramfs version *)
  (try! workloads :=
     (if initramfs config then
        try! i := getitem "img" (img config) in
        Ok (workloads ++ [initramfs_rule config i])
      else Ok workloads) in
   (* rule for the image *)
   match img config with
   | Some i => Ok (workloads ++ [img_rule config i])
   | None => Ok workloads
   end)%res.

Fixpoint addDeps (workloads : list Task) (cs : list Config) : Res (list Task) :=
  match cs with
  | [] => Ok workloads
  | c :: cs' => (try! w := addDep workloads c in addDeps w cs')%res
  end.

(** The base-distro tasks (lines 163-171). *)
Fixpoint distroTasks (cfgs : gmap string Config) (workloads : list Task)
         (ds : list string) : Res (list Task) :=
  match ds with
  | [] => Ok workloads
  | d :: ds' =>
    (try! dCfg := getitem d (cfgs !! d) in
     distroTasks cfgs
       (match img dCfg with
        | Some i => workloads ++ [mkTask i [ActBuildBaseImage (builder dCfg)] [i]
                                        [] [] [builder dCfg]]
        | None => workloads
        end) ds')%res
  end.

(** One pass of the loop over the non-distro configs (lines 174-180):
    the config itself, then its jobs in dictionary order. *)
Definition addWorkload (workloads : list Task) (config : Config) : Res (list Task) :=
  (try! w := addDep workloads config in
   match jobs config with
   | Some js => addDeps w (map snd js)
   | None => Ok w
   end)%res.

Fixpoint addWorkloads (cfgs : gmap string Config) (workloads : list Task)
         (keys : list string) : Res (list Task) :=
  match keys with
  | [] => Ok workloads
  | cfgPath :: keys' =>
    (try! config := getitem cfgPath (cfgs !! cfgPath) in
     try! w := addWorkload workloads config in
     addWorkloads cfgs w keys')%res
  end.

(** [buildDepGraph]: the loader's task list starts empty (one loader is
    made per run) and the set difference is walked in the order
    [elements] lists it. *)
Definition buildDepGraph (cfgs : gmap string Config) : Res (list Task) :=
  (try! w := distroTasks cfgs [] (distros host) in
   addWorkloads cfgs w
     (elements (dom cfgs ∖ (list_to_set (distros host) : gset string))))%res.
End Graph.

(** ** The outside world

    Each call that leaves the script is an [Event]; the log pairs it with
    what the environment answered.  The environment is an arbitrary
    function of the history, so every pattern of failing subprocesses and
    of files appearing between two steps is covered.  Messages handed to
    the logger are not traced; where building such a message can itself
    raise (line 339, a run spec with neither command nor path) the
    exception is kept. *)

Inductive Event : Type :=
| ECopy (from to : string)                         (* shutil.copy *)
| ERun (argv : list string) (cwd : option string)  (* util.run, argument list *)
| EShell (cmd : string)                            (* util.run, shell=True *)
| ECheckCall (argv : list string)                  (* subprocess.check_call *)
| EMkdir (dir : string)                            (* os.mkdir *)
| EGenOverlay (bld : string) (script : option string)
                                  (* builder.generateBootScriptOverlay *)
| EGenRunScript (cmd : string)                     (* util.genRunScript *)
| EToCpio (image cpio : string)                    (* util.toCpio *)
| EConvertInitramfsConfig (cfg cpio : string)
| ETempFile (suffix : string)     (* tempfile.NamedTemporaryFile, entered *)
| ETempClose (file : string)      (* ... and left *)
| EPrint (text : string)
| EPrintHelp
| EDoit (tasks : list Task) (run_targets : list string).

Inductive Outcome : Type :=
| Done
| Returned (p : string)
| Failed.

Definition Entry : Type := Event * Outcome.
Definition Log : Type := list Entry.

Record Env : Type := mkEnv {
  respond : Log -> Event -> Outcome;
  path_exists : Log -> string -> bool
}.

Definition failed (o : Outcome) : bool :=
  match o with Failed => true | _ => false end.

(** ** A state and exception monad over the log *)

Definition M (A : Type) : Type := Log -> Res A * Log.

Definition ret {A} (a : A) : M A := fun l => (Ok a, l).
Definition raise {A} (e : Exn) : M A := fun l => (Raise e, l).
Definition bind {A B} (m : M A) (k : A -> M B) : M B :=
  fun l => match m l with
           | (Ok a, l') => k a l'
           | (Raise e, l') => (Raise e, l')
           end.

(** [try: body finally: fin]: [fin] runs on both exits; an exception of
    [fin] replaces the pending one. *)
Definition finally {A} (body : M A) (fin : M unit) : M A :=
  fun l => match body l with
           | (r, l') =>
             match fin l' with
             | (Ok _, l'') => (r, l'')
             | (Raise e, l'') => (Raise e, l'')
             end
           end.

Definition lift {A} (r : Res A) : M A := fun l => (r, l).

Declare Scope m_scope.
Delimit Scope m_scope with M.
Notation "x <- c ;; k" := (bind c (fun x => k))
  (at level 100, c at next level, right associativity) : m_scope.
Notation "c ;; k" := (bind c (fun _ => k))
  (at level 100, right associativity) : m_scope.
Open Scope m_scope.

Definition when (b : bool) (m : M unit) : M unit := if b then m else ret tt.

Fixpoint forM {A} (xs : list A) (body : A -> M unit) : M unit :=
  match xs with
  | [] => ret tt
  | x :: xs' => body x ;; forM xs' body
  end.

(** [config['jobs'][k]] on the ordered job dictionary. *)
Fixpoint assoc_get {A} (k : string) (l : list (string * A)) : option A :=
  match l with
  | [] => None
  | (k', a) :: l' => if String.eqb k k' then Some a else assoc_get k l'
  end.

Section Script.
Variable host : Host.
Variable env : Env.

(** A call that returns nothing: raises [exn] when the environment
    fails it.  The attempt is logged either way. *)
Definition call (e : Event) (exn : Exn) : M unit :=
  fun l => let o := respond env l e in
           (if failed o then Raise exn else Ok tt, l ++ [(e, o)]).

(** A call that returns a path; an answer without a path counts as a
    failure of the call. *)
Definition call_path (e : Event) (exn : Exn) : M string :=
  fun l => let o := respond env l e in
           (match o with Returned p => Ok p | _ => Raise exn end, l ++ [(e, o)]).

(** Output that cannot fail. *)
Definition emit (e : Event) : M unit := fun l => (Ok tt, l ++ [(e, Done)]).

Definition exists_ (p : string) : M bool := fun l => (Ok (path_exists env l p), l).

Definition run (argv : list string) (cwd : option string) : M unit :=
  call (ERun argv cwd) CalledProcessError.
Definition run_shell (cmd : string) : M unit :=
  call (EShell cmd) CalledProcessError.
Definition check_call (argv : list string) : M unit :=
  call (ECheckCall argv) CalledProcessError.
Definition copy (from to : string) : M unit := call (ECopy from to) OSError.

(** *** Overlay applicator (lines 350-367) *)

Definition mount_cmd (image : string) : list string :=
  ["sudo"; "mount"; "-o"; "loop"; image; mnt host].
Definition umount_cmd : list string := ["sudo"; "umount"; mnt host].
Definition rsync_cmd (f : FileSpec) : string :=
  "sudo rsync -a --chown=root:root " +:+ src f +:+ " "
    +:+ normpath host (mnt host +:+ dst f).

Definition applyFiles (image : string) (fl : list FileSpec) : M unit :=
  run (mount_cmd image) None ;;
  finally (forM fl (fun f => run_shell (rsync_cmd f)))
          (run umount_cmd None).

Definition applyOverlay (image overlay : string) : M unit :=
  applyFiles image [mkFileSpec (path_join overlay "*") "/"].

(** *** Launching (lines 214-245) *)

Definition launchSpike (config : Config) (with_initramfs : bool) : M unit :=
  if with_initramfs || negb (bool_decide (is_Some (img config))) then
    check_call ["spike"; "-p4"; "-m4096"; bin config +:+ "-initramfs"]
  else
    raise (ValueError "Spike does not support disk-based configurations").

Definition qemu_base (exe : string) : list string :=
  ["qemu-system-riscv64"; "-nographic"; "-smp"; "4"; "-machine"; "virt";
   "-m"; "4G"; "-kernel"; exe;
   "-object"; "rng-random,filename=/dev/urandom,id=rng0";
   "-device"; "virtio-rng-device,rng=rng0";
   "-device"; "virtio-net-device,netdev=usernet";
   "-netdev"; "user,id=usernet,hostfwd=tcp::10000-:22"].

Definition qemu_cmd (config : Config) (with_initramfs : bool) : list string :=
  let exe := if with_initramfs then bin config +:+ "-initramfs" else bin config in
  match img config with
  | Some i =>
    if with_initramfs then qemu_base exe
    else qemu_base exe
           ++ ["-device"; "virtio-blk-device,drive=hd0";
               "-drive"; "file=" +:+ i +:+ ",format=raw,id=hd0"]
           ++ ["-append"; "ro root=/dev/vda"]
  | None => qemu_base exe
  end.

Definition launchQemu (config : Config) (with_initramfs : bool) : M unit :=
  check_call (qemu_cmd config with_initramfs).

(** *** Binary production (lines 271-300) *)

Definition with_tempfile {A} (suffix : string) (body : string -> M A) : M A :=
  tmp <- call_path (ETempFile suffix) OSError ;;
  finally (body tmp) (call (ETempClose tmp) OSError).

Definition makeBin (config : Config) (with_initramfs : bool) : M unit :=
  match linux_config config with
  | Some lc =>
    let linuxCfg := path_join (linux_dir host) ".config" in
    copy lc linuxCfg ;;
    (if with_initramfs then
       with_tempfile ".cpio" (fun tmpCpio =>
         i <- lift (getitem "img" (img config)) ;;
         call (EToCpio i tmpCpio) HelperError ;;
         call (EConvertInitramfsConfig linuxCfg tmpCpio) HelperError ;;
         run ["make"; "ARCH=riscv"; "olddefconfig"] (Some (linux_dir host)) ;;
         run ["make"; "ARCH=riscv"; "vmlinux"; jlevel host] (Some (linux_dir host)))
     else
       run ["make"; "ARCH=riscv"; "vmlinux"; jlevel host] (Some (linux_dir host))) ;;
    have_build <- exists_ "riscv-pk/build" ;;
    when (negb have_build) (call (EMkdir "riscv-pk/build") OSError) ;;
    run ["../configure"; "--host=riscv64-unknown-elf";
         "--with-payload=../../riscv-linux/vmlinux"] (Some "riscv-pk/build") ;;
    run ["make"; jlevel host] (Some "riscv-pk/build") ;;
    if with_initramfs then copy "riscv-pk/build/bbl" (bin config +:+ "-initramfs")
    else copy "riscv-pk/build/bbl" (bin config)
  | None =>
    if negb (String.eqb (distro config) "bare") then
      raise (ValueError
        "No linux config defined. This is only supported for workloads based on 'bare'")
    else ret tt
  end.

(** *** Image assembly (lines 302-346) *)

Definition generateBootScriptOverlay (bld : string) (script : option string) : M string :=
  call_path (EGenOverlay bld script) HelperError.

(** The five blocks of [makeImage], in the order of the source. *)

(** Line 305. *)
Definition seed (config : Config) : M string :=
  b <- lift (getitem "base-img" (base_img config)) ;;
  i <- lift (getitem "img" (img config)) ;;
  copy b i ;;
  ret i.

(** Lines 307-312. *)
Definition hostInit (config : Config) : M unit :=
  match host_init config with
  | Some hi =>
    ex <- exists_ hi ;;
    when (negb ex) (raise (ValueError ("host_init script " +:+ hi +:+ " not found."))) ;;
    run [hi] (Some (workdir config))
  | None => ret tt
  end.

(** Lines 314-316. *)
Definition fileOverlay (config : Config) (i : string) : M unit :=
  match files config with
  | Some fl => applyFiles i fl
  | None => ret tt
  end.

(** Lines 318-331. *)
Definition targetInit (config : Config) (i : string) : M unit :=
  match init config with
  | Some s =>
    ex <- exists_ s ;;
    when (negb ex) (raise (ValueError ("Init script " +:+ s +:+ " not found."))) ;;
    init_overlay <- generateBootScriptOverlay (builder config) (Some s) ;;
    applyOverlay i init_overlay ;;
    emit (EPrint ("Launching: " +:+ bin config)) ;;
    launchQemu config false ;;
    run_overlay <- generateBootScriptOverlay (builder config) None ;;
    applyOverlay i run_overlay
  | None => ret tt
  end.

(** Lines 333-346. *)
Definition runSpecInstall (config : Config) (i : string) : M unit :=
  match runSpec config with
  | Some spec =>
    scriptPath <-
      match command spec with
      | Some cmd => call_path (EGenRunScript cmd) HelperError
      | None => lift (match path spec with
                      | Some p => Ok p
                      | None => Raise TypeError
                      end)
      end ;;
    ex <- exists_ scriptPath ;;
    when (negb ex) (raise (ValueError ("Run script " +:+ scriptPath +:+ " not found."))) ;;
    run_overlay <- generateBootScriptOverlay (builder config) (Some scriptPath) ;;
    applyOverlay i run_overlay
  | None => ret tt
  end.

Definition makeImage (config : Config) : M unit :=
  i <- seed config ;;
  hostInit config ;;
  fileOverlay config i ;;
  targetInit config i ;;
  runSpecInstall config i.
End Script.

(** ** Command handlers and the tail of [main] (lines 63-80, 184-263) *)

(** The two sub-commands; with either of them the test of line 72 holds. *)
Inductive Command : Type := Build | Launch.

(** The parsed command line.  [arg_job] is [None] when [-j] is given
    without a value ([nargs='?'] with no [const]); with no [-j] at all it
    is [Some "all"]. *)
Record Args : Type := mkArgs {
  arg_config_file : string;
  arg_command : Command;
  arg_job : option string;
  arg_initramfs : bool;
  arg_spike : bool
}.

Definition set_job (a : Args) (j : option string) : Args :=
  mkArgs (arg_config_file a) (arg_command a) j (arg_initramfs a) (arg_spike a).

(** [args.job == 'all'] *)
Definition job_is_all (j : option string) : bool :=
  match j with
  | Some s => String.eqb s "all"
  | None => false
  end.

(** [s + args.job]: concatenating [None] to a string is a [TypeError]. *)
Definition str_add (s : string) (j : option string) : Res string :=
  match j with
  | Some t => Ok (s +:+ t)
  | None => Raise TypeError
  end.

Definition job_lookup (j : option string) (js : list (string * Config)) : Res Config :=
  match j with
  | Some s => getitem s (assoc_get s js)
  | None => Raise (KeyError "None")
  end.

(** What one config adds to [binList] and to [imgList]. *)
Definition bins_of (c : Config) : list string :=
  bin c :: (if initramfs c then [bin c +:+ "-initramfs"] else []).
Definition imgs_of (c : Config) : list string := opt_list (img c).

(** Lines 65-69: the [--initramfs] flag marks the target and its jobs. *)
Definition flag_initramfs (flag : bool) (targetCfg : Config) : Config :=
  if flag then
    set_initramfs
      (set_jobs targetCfg
         (option_map (map (fun j => (fst j, set_initramfs (snd j)))) (jobs targetCfg)))
  else targetCfg.

Definition newline : string := String "010"%char "".

Definition no_jobs_msg (j : string) : string :=
  "Job " +:+ j +:+ " requested, but no jobs specified in config file" +:+ newline.

Section Handlers.
Variable host : Host.
Variable env : Env.

Definition handleBuild (args : Args) (cfgs : gmap string Config) : M unit :=
  loader <- lift (buildDepGraph host cfgs) ;;
  config <- lift (getitem (arg_config_file args) (cfgs !! arg_config_file args)) ;;
  lists <-
    match jobs config with
    | Some js =>
      if job_is_all (arg_job args) then
        ret (bins_of config ++ flat_map (fun j => bins_of (snd j)) js,
             imgs_of config ++ flat_map (fun j => imgs_of (snd j)) js)
      else
        jCfg <- lift (job_lookup (arg_job args) js) ;;
        ret (bins_of config ++ bins_of jCfg, imgs_of config ++ imgs_of jCfg)
    | None => ret (bins_of config, imgs_of config)
    end ;;
  emit (EDoit loader (fst lists ++ snd lists)).

Definition handleLaunch (args : Args) (cfgs : gmap string Config) : M unit :=
  baseConfig <- lift (getitem (arg_config_file args) (cfgs !! arg_config_file args)) ;;
  config <-
    match jobs baseConfig with
    | Some js =>
      if negb (job_is_all (arg_job args)) then lift (job_lookup (arg_job args) js)
      else ret baseConfig
    | None => ret baseConfig
    end ;;
  if arg_spike args then
    when (bool_decide (is_Some (img config)) && negb (initramfs config))
         (raise (SystemExit
            ("Spike currently does not support disk-based "
             +:+ "configurations. Please use an initramfs based image."))) ;;
    launchSpike env config (arg_initramfs args)
  else
    launchQemu env config (arg_initramfs args).

Definition func (args : Args) : Args -> gmap string Config -> M unit :=
  match arg_command args with
  | Build => handleBuild
  | Launch => handleLaunch
  end.

(** [main] from the lookup of the target config on: [cfgs] is what
    [ConfigManager] loaded, [args] what [argparse] returned. *)
Definition main (args : Args) (cfgs : gmap string Config) : M unit :=
  targetCfg <- lift (getitem (arg_config_file args) (cfgs !! arg_config_file args)) ;;
  let targetCfg := flag_initramfs (arg_initramfs args) targetCfg in
  let cfgs := <[arg_config_file args := targetCfg]> cfgs in
  args <-
    (if negb (job_is_all (arg_job args)) then
       match jobs targetCfg with
       | Some _ =>
         j <- lift (str_add (name targetCfg +:+ "-") (arg_job args)) ;;
         ret (set_job args (Some j))
       | None =>
         msg <- lift (str_add "Job " (arg_job args)) ;;
         emit (EPrint (msg +:+ " requested, but no jobs specified in config file"
                           +:+ newline)) ;;
         emit EPrintHelp ;;
         ret args
       end
     else ret args) ;;
  func args args cfgs.
End Handlers.

(** ** Reading the task list *)

Definition is_image_task (t : Task) : bool :=
  match actions t with
  | [ActMakeImage _] => true
  | _ => false
  end.

Definition is_initramfs_task (t : Task) : bool :=
  match actions t with
  | [ActMakeBin _ true] => true
  | _ => false
  end.

(** The image node's file dependencies in the words of the specification:
    the config-identity file is always among them. *)
Definition spec_image_file_deps (host : Host) (c : Config) (identity : string)
  : list string :=
  opt_list (base_img c)
  ++ flat_map (fSpec_deps host) (default [] (files c))
  ++ opt_list (init c)
  ++ opt_list (rs ← runSpec c; path rs)
  ++ [identity].

(** ** Concrete hosts, environments and workloads used as test points *)

Definition host0 : Host :=
  mkHost "/mnt/img" "riscv-linux" "-j8" ["br"; "fedora"; "bare"]
         (fun p => p)
         (fun p => String.eqb p "overlay")
         (fun p => if String.eqb p "overlay"
                   then [("overlay", ["etc"], ["a"]); ("overlay/etc", [], ["b"; "c"])]
                   else []).

Definition blank (nm : string) : Config :=
  mkConfig nm (nm +:+ "-bin") "br" "br-builder" "/work"
           None None None false None None None None None None.

(** A workload that only describes metadata: no image, no kernel config,
    not bare. *)
Definition meta_cfg : Config := blank "meta".

(** An image with nothing else set, not even a ['cfg-file'] entry. *)
Definition bare_img_cfg : Config :=
  mkConfig "w" "w-bin" "br" "br-builder" "/work"
           (Some "w.img") None None false None None None None None None.

Definition full_cfg : Config :=
  mkConfig "full" "full-bin" "br" "br-builder" "/work"
           (Some "full.img") (Some "br.img") (Some "linux.cfg") true
           (Some [mkFileSpec "overlay" "/"; mkFileSpec "f/*.txt" "/root"])
           (Some "host.sh") (Some "init.sh")
           (Some (mkRunSpec None (Some "run.sh"))) (Some "full.json") None.

(** An environment in which every call succeeds and every path exists. *)
Definition env_ok : Env :=
  mkEnv (fun _ e =>
           match e with
           | EGenOverlay _ (Some s) => Returned ("/ovl/" +:+ s)
           | EGenOverlay _ None => Returned "/ovl/none"
           | EGenRunScript _ => Returned "/tmp/run.sh"
           | ETempFile _ => Returned "/tmp/t.cpio"
           | _ => Done
           end)
        (fun _ _ => true).

(** An environment in which every copy into the image fails. *)
Definition env_rsync_fails : Env :=
  mkEnv (fun _ e => match e with EShell _ => Failed | _ => Done end)
        (fun _ _ => true).

(** A bare workload that also names a kernel config. *)
Definition bare_linux_cfg : Config :=
  mkConfig "bl" "bl-bin" "bare" "bare-builder" "/work"
           None None (Some "linux.cfg") false None None None None None None.

(** ** The mount point

    Which image the log leaves mounted at [mnt]: a successful mount
    command occupies the mount point, a successful umount frees it. *)
Definition mount_step (host : Host) (st : option string) (en : Entry) : option string :=
  match en with
  | (ERun argv None, o) =>
    if failed o then st
    else if bool_decide (argv = umount_cmd host) then None
    else match argv with
         | [a1; a2; a3; a4; image; m] =>
           if bool_decide (argv = mount_cmd host image) then Some image else st
         | _ => st
         end
  | _ => st
  end.

Definition mount_state (host : Host) (l : Log) : option string :=
  fold_left (mount_step host) l None.

Definition succeeded (seg : Log) : Prop :=
  Forall (fun en => failed (snd en) = false) seg.

(** ** What a computation may log and raise

    [count p seg]: how many entries of [seg] carry an event marked by [p].
    [within P Q p n m]: from any log, [m] only appends entries whose events
    satisfy [P], at most [n] of them marked by [p], and raises only
    exceptions satisfying [Q]. *)
Definition count (p : Event -> bool) (seg : Log) : nat :=
  length (List.filter (fun en => p (fst en)) seg).

Definition within {A} (P : Event -> Prop) (Q : Exn -> Prop)
           (p : Event -> bool) (n : nat) (m : M A) : Prop :=
  forall l, exists seg,
    snd (m l) = l ++ seg
    /\ Forall (fun en => P (fst en)) seg
    /\ count p seg <= n
    /\ forall e, fst (m l) = Raise e -> Q e.

Definition unmarked (e : Event) : bool := false.

Definition spike_cmd (c : Config) : list string :=
  ["spike"; "-p4"; "-m4096"; bin c +:+ "-initramfs"].

Definition no_linux_config_msg : string :=
  "No linux config defined. This is only supported for workloads based on 'bare'".

Definition is_config_error (e : Exn) : Prop :=
  match e with ValueError _ => True | _ => False end.

(** A loaded configuration set: the three distros, a workload with one
    job, and a workload without jobs. *)
Definition distro_cfg (nm : string) : Config :=
  mkConfig nm (nm +:+ "-bin") nm (nm +:+ "-builder") "/work"
           (Some (nm +:+ ".img")) None None false None None None None None None.

Definition job_cfg : Config :=
  mkConfig "par-j0" "par-j0-bin" "br" "br-builder" "/work"
           (Some "par-j0.img") (Some "par.img") (Some "linux.cfg") false
           None None None (Some (mkRunSpec (Some "echo hi") None))
           (Some "par.json") None.

Definition parent_cfg : Config :=
  mkConfig "par" "par-bin" "br" "br-builder" "/work"
           (Some "par.img") (Some "br.img") (Some "linux.cfg") false
           None None None None (Some "par.json") (Some [("par-j0", job_cfg)]).

Definition cfgs0 : gmap string Config :=
  {[ "br" := distro_cfg "br"; "fedora" := distro_cfg "fedora";
     "bare" := distro_cfg "bare"; "par.json" := parent_cfg;
     "full.json" := full_cfg ]}.

(** What [main] prints when a job is named but the config has none. *)
Definition job_notice (j : string) : Log :=
  [(EPrint (no_jobs_msg j), Done); (EPrintHelp, Done)].

Definition spike_exit_msg : string :=
  "Spike currently does not support disk-based "
  +:+ "configurations. Please use an initramfs based image.".

(** ** The states of the assembly pipeline *)

Inductive Stage : Type := Seed | HostInit | FileOverlay | TargetInit | RunSpecInstall.

Definition is_mount (e : Event) : bool :=
  match e with
  | ERun (_ :: verb :: _) None => String.eqb verb "mount"
  | _ => false
  end.

Definition is_launch (e : Event) : bool :=
  match e with ECheckCall _ => true | _ => false end.

(** The step that tells one execution of a state: the seeding copy, the
    run of the host-init script, the mount of the file overlay, the boot
    of the emulator, the generation of the run-spec overlay. *)
Definition stage_mark (st : Stage) (e : Event) : bool :=
  match st, e with
  | Seed, ECopy _ _ => true
  | HostInit, ERun _ (Some _) => true
  | FileOverlay, _ => is_mount e
  | TargetInit, _ => is_launch e
  | RunSpecInstall, EGenOverlay _ _ => true
  | _, _ => false
  end.

(** The commands of one overlay application on [image]. *)
Definition applicator_event (host : Host) (image : string) (e : Event) : Prop :=
  e = ERun (mount_cmd host image) None
  \/ e = ERun (umount_cmd host) None
  \/ exists f, e = EShell (rsync_cmd host f).

(** The events each state may log; none when its field is not set. *)
Definition stage_event (host : Host) (c : Config) (st : Stage) (e : Event) : Prop :=
  match st with
  | Seed =>
    exists b i, base_img c = Some b /\ img c = Some i /\ e = ECopy b i
  | HostInit =>
    exists hi, host_init c = Some hi /\ e = ERun [hi] (Some (workdir c))
  | FileOverlay =>
    exists fl i, files c = Some fl /\ img c = Some i
      /\ (e = ERun (mount_cmd host i) None
          \/ e = ERun (umount_cmd host) None
          \/ exists f, In f fl /\ e = EShell (rsync_cmd host f))
  | TargetInit =>
    exists s i, init c = Some s /\ img c = Some i
      /\ (e = EGenOverlay (builder c) (Some s)
          \/ e = EGenOverlay (builder c) None
          \/ e = EPrint ("Launching: " +:+ bin c)
          \/ e = ECheckCall (qemu_cmd c false)
          \/ applicator_event host i e)
  | RunSpecInstall =>
    exists spec i, runSpec c = Some spec /\ img c = Some i
      /\ ((exists cmd, command spec = Some cmd /\ e = EGenRunScript cmd)
          \/ (exists p, e = EGenOverlay (builder c) (Some p))
          \/ applicator_event host i e)
  end.

(** The block of [makeImage] that carries out a state on image [i]. *)
Definition block (host : Host) (env : Env) (c : Config) (i : string) (st : Stage)
  : M unit :=
  match st with
  | Seed => seed env c ;; ret tt
  | HostInit => hostInit env c
  | FileOverlay => fileOverlay host env c i
  | TargetInit => targetInit host env c i
  | RunSpecInstall => runSpecInstall host env c i
  end.

(** [seg] is a complete, successful application of the overlay directory
    [d] on [image]: mount, one copy of [d/*] to the root, umount. *)
Definition overlay_applied (host : Host) (image d : string) (seg : Log) : Prop :=
  exists o1 o2 o3,
    seg = [(ERun (mount_cmd host image) None, o1);
           (EShell (rsync_cmd host (mkFileSpec (path_join d "*") "/")), o2);
           (ERun (umount_cmd host) None, o3)]
    /\ failed o1 = false /\ failed o2 = false /\ failed o3 = false.

(** ** The boot hook of an image

    Modelled from the spec: the builder capability is not part of the
    script.  [generateBootScriptOverlay s] leaves in the directory it
    returns a boot hook that runs [s], and with [None] an overlay that
    removes any hook; copying that directory's content onto the root of
    the mounted image installs it.  [boot_hook host image l] is the hook
    the overlay applications of [l] leave on [image]. *)
Record ImageView : Type := mkView {
  mounted : option string;
  overlays : list (string * option string);
  hook : option string
}.

Definition hook_step (host : Host) (image : string) (v : ImageView) (en : Entry)
  : ImageView :=
  mkView
    (mount_step host (mounted v) en)
    (match en with
     | (EGenOverlay _ s, Returned d) => (d, s) :: overlays v
     | _ => overlays v
     end)
    (match en with
     | (EShell cmd, o) =>
       if failed o then hook v
       else if bool_decide (mounted v = Some image) then
         match List.find
                 (fun ds => String.eqb cmd
                    (rsync_cmd host (mkFileSpec (path_join (fst ds) "*") "/")))
                 (overlays v) with
         | Some (_, s) => s
         | None => hook v
         end
       else hook v
     | _ => hook v
     end).

Definition boot_hook (host : Host) (image : string) (l : Log) : option string :=
  hook (fold_left (hook_step host image) l (mkView None [] None)).

(** Whether the field that enables a state is set; seeding always runs. *)
Definition stage_set (c : Config) (st : Stage) : Prop :=
  match st with
  | Seed => True
  | HostInit => is_Some (host_init c)
  | FileOverlay => is_Some (files c)
  | TargetInit => is_Some (init c)
  | RunSpecInstall => is_Some (runSpec c)
  end.

(** What one execution of a state's block leaves in the log; [ok] tells
    whether the pipeline went on to return. *)
Definition stage_run (host : Host) (c : Config) (st : Stage) (ok : bool) (seg : Log)
  : Prop :=
  Forall (fun en => stage_event host c st (fst en)) seg
  /\ count (stage_mark st) seg <= 1
  /\ (~ stage_set c st -> seg = [])
  /\ (ok = true -> stage_set c st -> count (stage_mark st) seg = 1).

(** ** The tasks of a workload *)

(** The tasks [addDep] appends for [c] when it returns. *)
Definition new_tasks (host : Host) (c : Config) : list Task :=
  bin_rule c
  :: match img c with
     | Some i => (if initramfs c then [initramfs_rule c i] else [])
                 ++ [img_rule host c i]
     | None => []
     end.

(** A config [addDep] can process: the initramfs key needs an image. *)
Definition buildable (c : Config) : Prop :=
  initramfs c = true -> is_Some (img c).

(** A config and its jobs, in the order [buildDepGraph] visits them. *)
Definition workload_configs (c : Config) : list Config :=
  c :: match jobs c with
       | Some js => map snd js
       | None => []
       end.

(** The task of a distro's base image. *)
Definition distro_rule (dCfg : Config) (i : string) : Task :=
  mkTask i [ActBuildBaseImage (builder dCfg)] [i] [] [] [builder dCfg].

(** The base-image tasks of the distros that have an image. *)
Definition distro_tasks (host : Host) (cfgs : gmap string Config) : list Task :=
  flat_map (fun d => match cfgs !! d with
                     | Some dCfg => match img dCfg with
                                    | Some i => [distro_rule dCfg i]
                                    | None => []
                                    end
                     | None => []
                     end) (distros host).

(** The configs [buildDepGraph] hands to [addDep]: every non-distro
    config followed by its jobs. *)
Definition graph_configs (host : Host) (cfgs : gmap string Config) : list Config :=
  flat_map (fun k => match cfgs !! k with
                     | Some c => workload_configs c
                     | None => []
                     end)
           (elements (dom cfgs ∖ (list_to_set (distros host) : gset string))).

(** The key of a job in its parent's job dictionary (line 75). *)
Definition job_key (c : Config) (j : string) : string := (name c +:+ "-") +:+ j.

(** ** Invariants of the log *)

(** [keeps I m]: running [m] from a log that satisfies [I] leaves a log
    that satisfies [I], whether [m] returns or raises. *)
Definition keeps {A} (I : Log -> Prop) (m : M A) : Prop :=
  forall l, I l -> I (snd (m l)).

(** Nothing is mounted at the mount point. *)
Definition unmounted (host : Host) (l : Log) : Prop := mount_state host l = None.

(** An environment in which the umount command never fails. *)
Definition umount_reliable (host : Host) (env : Env) : Prop :=
  forall l, failed (respond env l (ERun (umount_cmd host) None)) = false.

(** Events that are not commands run without a working directory; the
    mount and umount commands are not among them. *)
Definition no_bare_run (e : Event) : Prop :=
  match e with
  | ERun _ None => False
  | _ => True
  end.

(** An environment in which the emulator fails. *)
Definition env_qemu_fails : Env :=
  mkEnv (fun _ e =>
           match e with
           | ECheckCall _ => Failed
           | EGenOverlay _ (Some s) => Returned ("/ovl/" +:+ s)
           | EGenOverlay _ None => Returned "/ovl/none"
           | EGenRunScript _ => Returned "/tmp/run.sh"
           | ETempFile _ => Returned "/tmp/t.cpio"
           | _ => Done
           end)
        (fun _ _ => true).

(** Events of the temporary file of [makeBin]. *)
Definition is_temp_event (e : Event) : Prop :=
  match e with
  | ETempFile _ | ETempClose _ => True
  | _ => False
  end.

(** A workload with an image and no base image. *)
Definition orphan_img_cfg : Config :=
  mkConfig "o" "o-bin" "br" "br-builder" "/work"
           (Some "o.img") None None false None None None None None None.

(** An environment in which the kernel build fails. *)
Definition env_make_fails : Env :=
  mkEnv (fun _ e =>
           match e with
           | ERun ("make" :: _) _ => Failed
           | ETempFile _ => Returned "/tmp/t.cpio"
           | _ => Done
           end)
        (fun _ _ => true).

(** An environment in which no script exists. *)
Definition env_no_files : Env :=
  mkEnv (fun _ e =>
           match e with
           | EGenRunScript _ => Returned "/tmp/run.sh"
           | _ => Done
           end)
        (fun _ _ => false).

(** More test points: a config with the initramfs key and no image, a
    configuration set without the fedora distro, one with a
    metadata-only workload, and the job with a script path besides its
    command. *)
Definition initramfs_noimg_cfg : Config :=
  mkConfig "n" "n-bin" "br" "br-builder" "/work"
           None None (Some "linux.cfg") true None None None None None None.

Definition cfgs_no_fedora : gmap string Config :=
  {[ "br" := distro_cfg "br"; "bare" := distro_cfg "bare";
     "par.json" := parent_cfg ]}.

Definition cfgs_meta : gmap string Config :=
  {[ "br" := distro_cfg "br"; "fedora" := distro_cfg "fedora";
     "bare" := distro_cfg "bare"; "meta.json" := meta_cfg ]}.

Definition job_cfg_path : Config :=
  mkConfig "par-j0" "par-j0-bin" "br" "br-builder" "/work"
           (Some "par-j0.img") (Some "par.img") (Some "linux.cfg") false
           None None None (Some (mkRunSpec (Some "echo hi") (Some "unused.sh")))
           (Some "par.json") None.

(** The graph over [cfgs0]. *)
Definition graph0 : list Task :=
  match buildDepGraph host0 cfgs0 with
  | Ok g => g
  | Raise _ => []
  end.

(** * Properties *)

(** ** The dependency graph *)

Section GraphFacts.
Variable host : Host.

(** The tasks one call of [addDep] appends. *)
Lemma addDep_inv (w : list Task) (c : Config) (w' : list Task) :
  addDep host w c = Ok w' ->
  w' = w ++ bin_rule c
         :: match img c with
            | Some i => (if initramfs c then [initramfs_rule c i] else [])
                        ++ [img_rule host c i]
            | None => []
            end
  /\ (initramfs c = true -> is_Some (img c)).
Proof.
  unfold addDep.
  destruct (initramfs c), (img c) as [i|]; simpl; intros H;
    try discriminate; injection H as <-; split; eauto;
    rewrite <- ?app_assoc; try reflexivity; discriminate.
Qed.

Lemma addDep_raises (w : list Task) (c : Config) :
  initramfs c = true -> img c = None -> addDep host w c = Raise (KeyError "img").
Proof. unfold addDep. intros -> ->. reflexivity. Qed.

(** C2, as amended: a config with an image gets exactly one image task.
    Its file dependencies are the base image (if set), the files of
    every overlay source with directories walked recursively, the init
    script (if set), the run-spec path (if set and a path) and the
    ['cfg-file'] entry when the config has one; its task dependencies
    are the base image (if set) followed by the binary exactly when an
    init script is set. *)
Theorem image_node_deps (w : list Task) (c : Config) (i : string) (w' : list Task) :
  img c = Some i ->
  addDep host w c = Ok w' ->
  exists new t,
    w' = w ++ new
    /\ List.filter is_image_task new = [t]
    /\ task_name t = i
    /\ actions t = [ActMakeImage c]
    /\ targets t = [i]
    /\ file_dep t =
         opt_list (base_img c)
         ++ flat_map (fun f =>
               if isdir host (src f)
               then flat_map (fun '(root, _, fs) => map (path_join root) fs)
                             (walk host (src f))
               else [src f]) (default [] (files c))
         ++ opt_list (init c)
         ++ opt_list (rs ← runSpec c; path rs)
         ++ opt_list (cfg_file c)
    /\ task_dep t =
         opt_list (base_img c)
         ++ match init c with Some _ => [bin c] | None => [] end.
Proof.
  intros Hi H. apply addDep_inv in H as [-> _]. rewrite Hi.
  eexists _, (img_rule host c i). split; [reflexivity|].
  split; [destruct (initramfs c); reflexivity|].
  repeat split; simpl.
  all: unfold img_file_deps, fSpec_deps, img_task_deps.
  all: destruct (files c), (runSpec c), (init c); reflexivity.
Qed.

(** C3: an initramfs task appears among the tasks of [c] only if the
    initramfs flag is set and [c] has an image; it is then the task
    [bin-initramfs], its file dependencies are the image followed by
    the kernel config (if present), and its only task dependency is the
    image, which names the image task of [c] emitted beside it.  With
    the flag and an image the task is emitted. *)
Theorem initramfs_node (w : list Task) (c : Config) (w' : list Task) :
  addDep host w c = Ok w' ->
  exists new,
    w' = w ++ new
    /\ (forall t, In t new -> is_initramfs_task t = true ->
          initramfs c = true
          /\ exists i, img c = Some i
             /\ task_name t = bin c +:+ "-initramfs"
             /\ actions t = [ActMakeBin c true]
             /\ file_dep t = i :: opt_list (linux_config c)
             /\ task_dep t = [i]
             /\ exists u, In u new /\ is_image_task u = true /\ task_name u = i)
    /\ (initramfs c = true -> is_Some (img c)
        /\ length (List.filter is_initramfs_task new) = 1).
Proof.
  intros H. apply addDep_inv in H as [-> Hk].
  eexists. split; [reflexivity|]. split.
  - intros t Ht Hinit.
    destruct Ht as [<-|Ht]; [discriminate|].
    destruct (img c) as [i|] eqn:Hi; [|destruct Ht].
    destruct (initramfs c) eqn:Hr; simpl in Ht.
    + destruct Ht as [<-|[<-|[]]]; [|discriminate].
      split; [reflexivity|]. exists i. repeat split.
      exists (img_rule host c i). split; [right; right; left; reflexivity|].
      split; reflexivity.
    + destruct Ht as [<-|[]]. discriminate.
  - intros Hr. destruct (Hk Hr) as [i Hi]. split; [eauto|].
    rewrite Hi, Hr. reflexivity.
Qed.

(** C4, as amended: a workload with no image (and no initramfs flag)
    still gets its binary task, whatever its kernel config and distro;
    without a kernel config that task has no dependencies at all. *)
Theorem no_image_still_binary (w : list Task) (c : Config) :
  img c = None ->
  initramfs c = false ->
  addDep host w c = Ok (w ++ [bin_rule c])
  /\ task_name (bin_rule c) = bin c
  /\ actions (bin_rule c) = [ActMakeBin c false]
  /\ task_dep (bin_rule c) = []
  /\ (linux_config c = None -> file_dep (bin_rule c) = []).
Proof.
  intros Hi Hr. unfold addDep. rewrite Hi, Hr. simpl.
  repeat split. intros ->. reflexivity.
Qed.
End GraphFacts.

(** C2 as stated fails where the config has no ['cfg-file'] entry: the
    image task of [bare_img_cfg] has no file dependency at all, so no
    config-identity file is among them. *)
Lemma image_node_deps_counterexample :
  img bare_img_cfg = Some "w.img"
  /\ addDep host0 [] bare_img_cfg
     = Ok [bin_rule bare_img_cfg; img_rule host0 bare_img_cfg "w.img"]
  /\ file_dep (img_rule host0 bare_img_cfg "w.img") = []
  /\ ~ exists identity,
         file_dep (img_rule host0 bare_img_cfg "w.img")
         = spec_image_file_deps host0 bare_img_cfg identity.
Proof.
  repeat split. intros [identity H]. discriminate H.
Qed.

Lemma image_node_deps_witness :
  exists new t,
    [] ++ [bin_rule full_cfg; initramfs_rule full_cfg "full.img";
           img_rule host0 full_cfg "full.img"] = [] ++ new
    /\ List.filter is_image_task new = [t]
    /\ file_dep t = ["br.img"; "overlay/a"; "overlay/etc/b"; "overlay/etc/c";
                     "f/*.txt"; "init.sh"; "run.sh"; "full.json"]
    /\ task_dep t = ["br.img"; "full-bin"].
Proof.
  destruct (image_node_deps host0 [] full_cfg "full.img" _ eq_refl eq_refl)
    as (new & t & E & F & _ & _ & _ & Hf & Ht).
  exists new, t. repeat split; assumption.
Defined.

Lemma initramfs_node_witness :
  exists new,
    [bin_rule full_cfg; initramfs_rule full_cfg "full.img";
     img_rule host0 full_cfg "full.img"] = [] ++ new
    /\ length (List.filter is_initramfs_task new) = 1.
Proof.
  destruct (initramfs_node host0 [] full_cfg _ eq_refl) as (new & E & _ & H).
  exists new. split; [exact E|]. exact (proj2 (H eq_refl)).
Defined.

(** C4 as stated fails: [meta_cfg] has no image, no kernel config and is
    not bare, yet [addDep] emits its binary task. *)
Lemma metadata_only_counterexample :
  img meta_cfg = None
  /\ linux_config meta_cfg = None
  /\ distro meta_cfg <> "bare"
  /\ addDep host0 [] meta_cfg = Ok [bin_rule meta_cfg]
  /\ addDep host0 [] meta_cfg <> Ok [].
Proof. repeat split; discriminate. Qed.

Lemma no_image_still_binary_witness :
  addDep host0 [] meta_cfg = Ok ([] ++ [bin_rule meta_cfg])
  /\ file_dep (bin_rule meta_cfg) = [].
Proof.
  destruct (no_image_still_binary host0 [] meta_cfg eq_refl eq_refl)
    as (H & _ & _ & _ & Hf).
  split; [exact H | exact (Hf eq_refl)].
Defined.

(** ** The monad *)

Section MonadFacts.
Variable host : Host.
Variable env : Env.

Lemma bind_ok {A B} (m : M A) (k : A -> M B) (l l' : Log) (b : B) :
  bind m k l = (Ok b, l') ->
  exists a l1, m l = (Ok a, l1) /\ k a l1 = (Ok b, l').
Proof.
  unfold bind. destruct (m l) as [[a|e] l1]; [eauto | discriminate].
Qed.

Lemma call_ok (e : Event) (exn : Exn) (l l' : Log) (u : unit) :
  call env e exn l = (Ok u, l') ->
  exists o, l' = l ++ [(e, o)] /\ failed o = false.
Proof.
  unfold call. destruct (failed (respond env l e)) eqn:F; [discriminate|].
  intros [= _ <-]. eauto.
Qed.

Lemma call_path_ok (e : Event) (exn : Exn) (l l' : Log) (p : string) :
  call_path env e exn l = (Ok p, l') -> l' = l ++ [(e, Returned p)].
Proof.
  unfold call_path. destruct (respond env l e); try discriminate.
  intros [= <- <-]. reflexivity.
Qed.

Lemma finally_ok {A} (body : M A) (fin : M unit) (l l' : Log) (a : A) :
  finally body fin l = (Ok a, l') ->
  exists l1 u, body l = (Ok a, l1) /\ fin l1 = (Ok u, l').
Proof.
  unfold finally. destruct (body l) as [r l1].
  destruct (fin l1) as [[u|e] l2] eqn:F; [|discriminate].
  intros [= -> <-]. eauto.
Qed.

Lemma when_ok (b : bool) (m : M unit) (l l' : Log) (u : unit) :
  when b m l = (Ok u, l') -> (b = false /\ l' = l) \/ (b = true /\ m l = (Ok u, l')).
Proof.
  destruct b; simpl; [eauto|]. unfold ret. intros [= _ <-]. eauto.
Qed.
End MonadFacts.

Lemma count_app (p : Event -> bool) (s1 s2 : Log) :
  count p (s1 ++ s2) = count p s1 + count p s2.
Proof. unfold count. rewrite List.filter_app, length_app. reflexivity. Qed.

Section WithinFacts.
Variable host : Host.
Variable env : Env.
Context {P : Event -> Prop} {Q : Exn -> Prop} {p : Event -> bool}.

Lemma within_nil {A} (m : M A) (l : Log) (n : nat) :
  snd (m l) = l -> (forall e, fst (m l) = Raise e -> Q e) ->
  exists seg, snd (m l) = l ++ seg
              /\ Forall (fun en => P (fst en)) seg
              /\ count p seg <= n
              /\ forall e, fst (m l) = Raise e -> Q e.
Proof.
  intros E R. exists []. rewrite app_nil_r.
  repeat split; [exact E | constructor | apply Nat.le_0_l | exact R].
Qed.

Lemma within_ret {A} (a : A) : within P Q p 0 (ret a).
Proof. intros l. apply within_nil; [reflexivity | discriminate]. Qed.

Lemma within_raise {A} (e : Exn) : Q e -> within P Q p 0 (raise e : M A).
Proof.
  intros He l. apply within_nil; [reflexivity|]. intros e' [= <-]. exact He.
Qed.

Lemma within_lift {A} (r : Res A) :
  (forall e, r = Raise e -> Q e) -> within P Q p 0 (lift r).
Proof. intros Hr l. apply within_nil; [reflexivity | exact Hr]. Qed.

Lemma within_exists (f : string) : within P Q p 0 (exists_ env f).
Proof. intros l. apply within_nil; [reflexivity | discriminate]. Qed.

Lemma within_one {A} (m : M A) (l : Log) (en : Entry) (n : nat) :
  snd (m l) = l ++ [en] -> P (fst en) ->
  (if p (fst en) then 1 else 0) <= n ->
  (forall e, fst (m l) = Raise e -> Q e) ->
  exists seg, snd (m l) = l ++ seg
              /\ Forall (fun en => P (fst en)) seg
              /\ count p seg <= n
              /\ forall e, fst (m l) = Raise e -> Q e.
Proof.
  intros E He Hn R. exists [en].
  repeat split; [exact E | repeat constructor; exact He | | exact R].
  unfold count. simpl. destruct (p (fst en)); simpl in *; lia.
Qed.

(** A call costs one unit of the budget if its event is marked. *)
Lemma within_call (e : Event) (exn : Exn) (n : nat) :
  (if p e then 1 else 0) <= n -> P e -> Q exn -> within P Q p n (call env e exn).
Proof.
  intros Hn He Hx l.
  apply (within_one _ _ (e, respond env l e)); [reflexivity | exact He | exact Hn |].
  unfold call; simpl. destruct (failed _); [intros e' [= <-]; exact Hx | discriminate].
Qed.

Lemma within_call_path (e : Event) (exn : Exn) (n : nat) :
  (if p e then 1 else 0) <= n -> P e -> Q exn -> within P Q p n (call_path env e exn).
Proof.
  intros Hn He Hx l.
  apply (within_one _ _ (e, respond env l e)); [reflexivity | exact He | exact Hn |].
  unfold call_path; simpl.
  destruct (respond env l e); try discriminate; intros e' [= <-]; exact Hx.
Qed.

Lemma within_emit (e : Event) (n : nat) :
  (if p e then 1 else 0) <= n -> P e -> within P Q p n (emit e).
Proof.
  intros Hn He l.
  apply (within_one _ _ (e, Done)); [reflexivity | exact He | exact Hn | discriminate].
Qed.

Lemma within_bind {A B} (m : M A) (k : A -> M B) (n1 n2 : nat) :
  within P Q p n1 m -> (forall a, within P Q p n2 (k a)) ->
  within P Q p (n1 + n2) (bind m k).
Proof.
  intros Hm Hk l. destruct (Hm l) as (s1 & E1 & F1 & C1 & R1).
  unfold bind. destruct (m l) as [[a|e] l1]; simpl in *; subst l1.
  - destruct (Hk a (l ++ s1)) as (s2 & E2 & F2 & C2 & R2).
    exists (s1 ++ s2). rewrite E2, app_assoc, count_app.
    repeat split; [apply Forall_app; split; assumption | lia | exact R2].
  - exists s1. repeat split; [assumption | lia |].
    intros e' [= <-]. apply R1. reflexivity.
Qed.

(** Binding a value that is already there. *)
Lemma within_bind_ok {A B} (a : A) (k : A -> M B) (n : nat) :
  within P Q p n (k a) -> within P Q p n (bind (lift (Ok a)) k).
Proof. intros H. exact H. Qed.

Lemma within_finally {A} (body : M A) (fin : M unit) (n1 n2 : nat) :
  within P Q p n1 body -> within P Q p n2 fin ->
  within P Q p (n1 + n2) (finally body fin).
Proof.
  intros Hb Hf l. destruct (Hb l) as (s1 & E1 & F1 & C1 & R1).
  unfold finally. destruct (body l) as [r l1]; simpl in *; subst l1.
  destruct (Hf (l ++ s1)) as (s2 & E2 & F2 & C2 & R2).
  exists (s1 ++ s2). rewrite app_assoc, count_app.
  destruct (fin (l ++ s1)) as [[u|e] l2]; simpl in *; subst l2.
  - repeat split; [apply Forall_app; split; assumption | lia | exact R1].
  - repeat split; [apply Forall_app; split; assumption | lia |].
    intros e' [= <-]. apply R2. reflexivity.
Qed.

Lemma within_budget {A} (m : M A) (n n' : nat) :
  within P Q p n m -> n <= n' -> within P Q p n' m.
Proof.
  intros H Hn l. destruct (H l) as (seg & E & F & C & R).
  exists seg. repeat split; [exact E | exact F | lia | exact R].
Qed.

Lemma within_when (b : bool) (m : M unit) (n : nat) :
  within P Q p n m -> within P Q p n (when b m).
Proof.
  destruct b; [trivial|]. intros _.
  apply (within_budget _ 0); [apply within_ret | lia].
Qed.

Lemma within_forM {A} (xs : list A) (body : A -> M unit) (n : nat) :
  (forall x, In x xs -> within P Q p n (body x)) ->
  within P Q p (length xs * n) (forM xs body).
Proof.
  induction xs as [|x xs IH]; intros H; simpl.
  - apply within_ret.
  - apply within_bind; [apply H; left; reflexivity|].
    intros _. apply IH. intros y Hy. apply H. right. exact Hy.
Qed.
End WithinFacts.

Lemma within_weaken {A} (P P' : Event -> Prop) (Q Q' : Exn -> Prop)
      (p : Event -> bool) (n : nat) (m : M A) :
  (forall e, P e -> P' e) -> (forall e, Q e -> Q' e) ->
  within P Q p n m -> within P' Q' p n m.
Proof.
  intros HP HQ H l. destruct (H l) as (seg & E & F & C & R).
  exists seg. repeat split; [exact E | | exact C | auto].
  eapply Forall_impl; [exact F|]. intros en. apply HP.
Qed.

(** Steps through a computation built from the script's primitives; a
    call is first tried for free, then for one unit of the budget. *)
Ltac within_step :=
  first
    [ apply within_ret
    | match goal with
      | |- within _ _ _ _ (bind (lift (Ok ?a)) ?k) => apply (within_bind_ok a k)
      end
    | apply within_raise
    | apply within_lift
    | apply within_exists
    | apply (within_call _ _ _ 0); [apply Nat.le_refl | |]
    | apply (within_call _ _ _ 1); [destruct_and?; simpl; lia | |]
    | apply (within_call_path _ _ _ 0); [apply Nat.le_refl | |]
    | apply (within_call_path _ _ _ 1); [simpl; lia | |]
    | apply (within_emit _ 0); [apply Nat.le_refl |]
    | apply (within_emit _ 1); [simpl; lia |]
    | apply within_when
    | eapply within_finally
    | eapply within_bind; [|intros ?] ].

(** ** Launching and binary production *)

Section LaunchFacts.
Variable host : Host.
Variable env : Env.

(** A computation that starts with a call logs that call first. *)
Lemma after_call {B} (e : Event) (exn : Exn) (k : unit -> M B) (Q : Exn -> Prop) :
  Q exn ->
  (forall u, within (fun _ => True) Q unmarked 0 (k u)) ->
  forall l, exists rest,
    snd (bind (call env e exn) k l) = l ++ (e, respond env l e) :: rest
    /\ forall x, fst (bind (call env e exn) k l) = Raise x -> Q x.
Proof.
  intros Hx Hk l. unfold bind, call.
  destruct (failed (respond env l e)).
  - exists []. split; [reflexivity|]. intros x [= <-]. exact Hx.
  - destruct (Hk tt (l ++ [(e, respond env l e)])) as (seg & E & _ & _ & R).
    exists seg. rewrite E, <- app_assoc. split; [reflexivity | exact R].
Qed.

(** C10: with no image in the config, [launchSpike] runs spike on
    [bin-initramfs] whatever the initramfs argument; the only exception
    of its own is the [ValueError] raised, before anything runs, when
    an image is present and the argument is false. *)
Theorem launchSpike_without_image (c : Config) (with_initramfs : bool) (l : Log) :
  (img c = None ->
     launchSpike env c with_initramfs l
     = (if failed (respond env l (ECheckCall (spike_cmd c)))
        then Raise CalledProcessError else Ok tt,
        l ++ [(ECheckCall (spike_cmd c), respond env l (ECheckCall (spike_cmd c)))]))
  /\ (forall msg,
        fst (launchSpike env c with_initramfs l) = Raise (ValueError msg) ->
        is_Some (img c) /\ with_initramfs = false)
  /\ (is_Some (img c) -> with_initramfs = false ->
        launchSpike env c with_initramfs l
        = (Raise (ValueError "Spike does not support disk-based configurations"), l)).
Proof.
  unfold launchSpike, check_call, call, spike_cmd.
  destruct (img c) as [i|], with_initramfs; simpl.
  all: repeat split; try reflexivity; try discriminate; eauto.
  all: try (intros [? [=]]).
  all: match goal with
       | H : (if failed ?o then _ else _) = _ |- _ => destruct (failed o); discriminate H
       end.
Qed.

(** C7, as amended: [makeBin] raises its configuration error exactly
    when the config has neither a kernel config nor the bare distro,
    and then nothing is run and no binary produced.  On bare without a
    kernel config it returns at once; with a kernel config it starts
    the kernel build whatever the distro, and never raises that
    error. *)
Theorem makeBin_config_error (c : Config) (with_initramfs : bool) (l : Log) :
  (linux_config c = None -> distro c <> "bare" ->
     makeBin host env c with_initramfs l = (Raise (ValueError no_linux_config_msg), l))
  /\ (linux_config c = None -> distro c = "bare" ->
        makeBin host env c with_initramfs l = (Ok tt, l))
  /\ (forall lc, linux_config c = Some lc ->
        exists first rest,
          snd (makeBin host env c with_initramfs l) = l ++ first :: rest
          /\ fst first = ECopy lc (path_join (linux_dir host) ".config")
          /\ forall e, fst (makeBin host env c with_initramfs l) = Raise e ->
                       ~ is_config_error e).
Proof.
  unfold makeBin. split; [|split].
  - intros -> Hd. apply String.eqb_neq in Hd. rewrite Hd. reflexivity.
  - intros -> ->. reflexivity.
  - intros lc ->. unfold copy at 1.
    match goal with
    | |- context [bind (call env ?ev ?x) ?k] =>
      destruct (after_call ev x k (fun exn => ~ is_config_error exn)) with (l := l)
        as (rest & E & R)
    end.
    + simpl. tauto.
    + intros _. unfold with_tempfile, run, copy.
      destruct with_initramfs.
      all: eapply within_budget; [|shelve].
      all: repeat within_step; try exact I; try (simpl; tauto).
      all: try (destruct (img c); simpl; intros e0 [=]; subst; simpl; tauto).
      Unshelve. all: simpl; lia.
    + eexists _, rest. split; [exact E|]. split; [reflexivity | exact R].
Qed.
End LaunchFacts.

Lemma launchSpike_without_image_witness :
  launchSpike env_ok meta_cfg false []
  = (Ok tt, [(ECheckCall ["spike"; "-p4"; "-m4096"; "meta-bin-initramfs"], Done)]).
Proof.
  exact (proj1 (launchSpike_without_image env_ok meta_cfg false []) eq_refl).
Defined.

(** C7 as stated fails: [bare_linux_cfg] is bare and has a kernel config,
    so not exactly one of the two holds, yet [makeBin] builds the binary
    and copies it to its place. *)
Lemma makeBin_both_counterexample :
  linux_config bare_linux_cfg = Some "linux.cfg"
  /\ distro bare_linux_cfg = "bare"
  /\ fst (makeBin host0 env_ok bare_linux_cfg false []) = Ok tt
  /\ last (snd (makeBin host0 env_ok bare_linux_cfg false []))
     = Some (ECopy "riscv-pk/build/bbl" "bl-bin", Done).
Proof. repeat split. Qed.

Lemma makeBin_config_error_witness :
  makeBin host0 env_ok meta_cfg false []
  = (Raise (ValueError no_linux_config_msg), []).
Proof.
  apply (proj1 (makeBin_config_error host0 env_ok meta_cfg false [])).
  - reflexivity.
  - discriminate.
Defined.

(** ** The overlay applicator *)

Section ApplyFacts.
Variable host : Host.
Variable env : Env.

Lemma mount_state_umount (l : Log) (o : Outcome) :
  failed o = false ->
  mount_state host (l ++ [(ERun (umount_cmd host) None, o)]) = None.
Proof.
  intros Ho. unfold mount_state. rewrite fold_left_app. simpl.
  rewrite Ho, bool_decide_eq_true_2; reflexivity.
Qed.

(** The copy loop only runs rsync, on files of the list. *)
Lemma copies_within (fl : list FileSpec) :
  within (fun e => exists f, In f fl /\ e = EShell (rsync_cmd host f))
         (fun e => e = CalledProcessError) unmarked (length fl * 0)
         (forM fl (fun f => run_shell env (rsync_cmd host f))).
Proof.
  apply within_forM. intros f Hf. apply within_call; [apply Nat.le_refl | eauto | reflexivity].
Qed.

Lemma applyFiles_shape (image : string) (fl : list FileSpec) (l : Log) :
  failed (respond env l (ERun (mount_cmd host image) None)) = false ->
  exists r copies o,
    applyFiles host env image fl l
    = (r, l ++ (ERun (mount_cmd host image) None,
                respond env l (ERun (mount_cmd host image) None))
            :: copies ++ [(ERun (umount_cmd host) None, o)])
    /\ Forall (fun en => exists f, In f fl /\ fst en = EShell (rsync_cmd host f)) copies.
Proof.
  intros Hm. unfold applyFiles, bind, run at 1, call at 1. rewrite Hm.
  match goal with
  | |- context [finally _ _ ?l0] => set (l1 := l0)
  end.
  destruct (copies_within fl l1) as (copies & E & F & _ & _).
  unfold finally, run, call.
  destruct (forM fl _ l1) as [r l2]. simpl in E. subst l2.
  set (o := respond env (l1 ++ copies) (ERun (umount_cmd host) None)).
  exists (if failed o then Raise CalledProcessError else r), copies, o.
  split; [|exact F].
  unfold l1. rewrite <- !app_assoc. destruct (failed o); reflexivity.
Qed.

(** C6: once the mount command has succeeded, [applyFiles] ends, on
    return and on exception alike, with the umount command; between the
    two only copies of listed files are run, and where the umount
    itself succeeds the mount point is free afterwards. *)
Theorem applyFiles_always_unmounts (image : string) (fl : list FileSpec) (l : Log) :
  failed (respond env l (ERun (mount_cmd host image) None)) = false ->
  exists r copies o,
    applyFiles host env image fl l
    = (r, l ++ (ERun (mount_cmd host image) None,
                respond env l (ERun (mount_cmd host image) None))
            :: copies ++ [(ERun (umount_cmd host) None, o)])
    /\ Forall (fun en => exists f, In f fl /\ fst en = EShell (rsync_cmd host f)) copies
    /\ (failed o = false ->
        mount_state host (snd (applyFiles host env image fl l)) = None).
Proof.
  intros Hm. destruct (applyFiles_shape image fl l Hm) as (r & copies & o & E & F).
  exists r, copies, o. split; [exact E|]. split; [exact F|].
  intros Ho. rewrite E. simpl.
  change (?x :: copies ++ ?y) with ([x] ++ copies ++ y).
  rewrite !app_assoc. apply mount_state_umount. exact Ho.
Qed.

(** If the mount command fails nothing was mounted, and nothing else is
    run. *)
Lemma applyFiles_mount_fails (image : string) (fl : list FileSpec) (l : Log) :
  failed (respond env l (ERun (mount_cmd host image) None)) = true ->
  applyFiles host env image fl l
  = (Raise CalledProcessError,
     l ++ [(ERun (mount_cmd host image) None,
            respond env l (ERun (mount_cmd host image) None))]).
Proof.
  intros Hm. unfold applyFiles, bind, run at 1, call at 1. rewrite Hm. reflexivity.
Qed.
End ApplyFacts.

Lemma applyFiles_always_unmounts_witness :
  exists r copies o,
    applyFiles host0 env_rsync_fails "w.img"
               [mkFileSpec "a" "/etc"; mkFileSpec "b" "/root"] []
    = (r, [] ++ (ERun (mount_cmd host0 "w.img") None, Done)
             :: copies ++ [(ERun (umount_cmd host0) None, o)])
    /\ r = Raise CalledProcessError
    /\ mount_state host0
         (snd (applyFiles host0 env_rsync_fails "w.img"
                          [mkFileSpec "a" "/etc"; mkFileSpec "b" "/root"] [])) = None.
Proof.
  destruct (applyFiles_always_unmounts host0 env_rsync_fails "w.img"
              [mkFileSpec "a" "/etc"; mkFileSpec "b" "/root"] [] eq_refl)
    as (r & copies & o & E & _ & _).
  exists r, copies, o. split; [exact E|].
  split; [|reflexivity].
  vm_compute in E. injection E as <- _. reflexivity.
Defined.

(** ** Handlers *)

Section HandlerFacts.
Variable host : Host.
Variable env : Env.

(** A successful [handleBuild] hands doit the graph of [buildDepGraph]. *)
Lemma handleBuild_ok (args : Args) (cfgs : gmap string Config) (l l' : Log) (u : unit) :
  handleBuild host args cfgs l = (Ok u, l') ->
  exists g ts, buildDepGraph host cfgs = Ok g /\ l' = l ++ [(EDoit g ts, Done)].
Proof.
  unfold handleBuild. intros H.
  apply bind_ok in H as (g & l1 & Hg & H).
  apply bind_ok in H as (c & l2 & Hc & H).
  apply bind_ok in H as (ls & l3 & Hl & H).
  unfold lift, emit in *. simplify_eq.
  exists g, (fst ls ++ snd ls). split; [assumption|].
  destruct (jobs c) as [js|]; [destruct (job_is_all (arg_job args))|].
  - unfold ret in Hl. simplify_eq. reflexivity.
  - apply bind_ok in Hl as (jc & l4 & Hj & Hl).
    unfold ret in Hl. simplify_eq. reflexivity.
  - unfold ret in Hl. simplify_eq. reflexivity.
Qed.


Lemma flag_initramfs_jobs (flag : bool) (c : Config) :
  jobs c = None -> jobs (flag_initramfs flag c) = None.
Proof. intros H. destruct flag; simpl; [rewrite H|]; trivial. Qed.

(** C9: a job other than ['all'] is named but the target config has no
    jobs.  [main] prints the notice and the help, does not stop, and
    calls the handler of the command with the arguments unchanged; the
    handler then works on the base workload: a build asks doit for the
    base binaries and image, a launch boots the base config. *)
Theorem job_without_jobs
        (args : Args) (cfgs : gmap string Config) (targetCfg : Config)
        (j : string) (l : Log) :
  cfgs !! arg_config_file args = Some targetCfg ->
  jobs targetCfg = None ->
  arg_job args = Some j ->
  j <> "all" ->
  main host env args cfgs l
  = func host env args args
         (<[arg_config_file args := flag_initramfs (arg_initramfs args) targetCfg]> cfgs)
         (l ++ job_notice j)
  /\ (arg_command args = Build ->
      main host env args cfgs l
      = match buildDepGraph host
                (<[arg_config_file args
                   := flag_initramfs (arg_initramfs args) targetCfg]> cfgs) with
        | Ok g =>
          (Ok tt,
           (l ++ job_notice j)
           ++ [(EDoit g (bins_of (flag_initramfs (arg_initramfs args) targetCfg)
                         ++ imgs_of (flag_initramfs (arg_initramfs args) targetCfg)),
                Done)])
        | Raise e => (Raise e, l ++ job_notice j)
        end)
  /\ (arg_command args = Launch ->
      main host env args cfgs l
      = (if arg_spike args then
           when (bool_decide
                   (is_Some (img (flag_initramfs (arg_initramfs args) targetCfg)))
                 && negb (initramfs (flag_initramfs (arg_initramfs args) targetCfg)))
                (raise (SystemExit spike_exit_msg)) ;;
           launchSpike env (flag_initramfs (arg_initramfs args) targetCfg)
                       (arg_initramfs args)
         else
           launchQemu env (flag_initramfs (arg_initramfs args) targetCfg)
                      (arg_initramfs args))
          (l ++ job_notice j)).
Proof.
  intros Hc Hj Ha Hn.
  assert (Hmain : main host env args cfgs l
    = func host env args args
        (<[arg_config_file args := flag_initramfs (arg_initramfs args) targetCfg]> cfgs)
        (l ++ job_notice j)).
  { unfold main, bind, lift. rewrite Hc. simpl.
    rewrite Ha. simpl. apply String.eqb_neq in Hn. rewrite Hn. simpl.
    rewrite (flag_initramfs_jobs _ _ Hj). unfold emit, ret, job_notice, no_jobs_msg.
    simpl. rewrite <- app_assoc. reflexivity. }
  split; [exact Hmain|]. split; intros Hcmd; rewrite Hmain; unfold func; rewrite Hcmd.
  - unfold handleBuild, bind, lift.
    destruct (buildDepGraph host _) as [g|e]; [|reflexivity].
    rewrite lookup_insert_eq. simpl.
    rewrite (flag_initramfs_jobs _ _ Hj). reflexivity.
  - unfold handleLaunch, bind at 1 2, lift.
    rewrite lookup_insert_eq. simpl.
    rewrite (flag_initramfs_jobs _ _ Hj). reflexivity.
Qed.
End HandlerFacts.


Lemma job_without_jobs_witness :
  main host0 env_ok (mkArgs "full.json" Launch (Some "j0") false false) cfgs0 []
  = launchQemu env_ok full_cfg false ([] ++ job_notice "j0").
Proof.
  refine (proj2 (proj2 (job_without_jobs host0 env_ok
            (mkArgs "full.json" Launch (Some "j0") false false) cfgs0 full_cfg "j0" []
            _ _ _ _)) eq_refl).
  - vm_compute. reflexivity.
  - reflexivity.
  - reflexivity.
  - discriminate.
Defined.

(** ** The assembly pipeline: what each state logs *)

Section StageFacts.
Variable host : Host.
Variable env : Env.

Lemma applyFiles_within (P : Event -> Prop) (Q : Exn -> Prop) (p : Event -> bool)
      (n : nat) (image : string) (fl : list FileSpec) :
  P (ERun (mount_cmd host image) None) ->
  P (ERun (umount_cmd host) None) ->
  (forall f, In f fl -> P (EShell (rsync_cmd host f))) ->
  Q CalledProcessError ->
  (forall f, In f fl -> p (EShell (rsync_cmd host f)) = false) ->
  p (ERun (umount_cmd host) None) = false ->
  (if p (ERun (mount_cmd host image) None) then 1 else 0) <= n ->
  within P Q p n (applyFiles host env image fl).
Proof.
  intros Hm Hu Hc Hq Hps Hpu Hn. unfold applyFiles, run, run_shell.
  apply (within_budget _ ((if p (ERun (mount_cmd host image) None) then 1 else 0)
                          + (length fl * 0 + 0))); [|lia].
  apply within_bind; [apply within_call; [apply Nat.le_refl | exact Hm | exact Hq]|].
  intros _. apply within_finally.
  - apply within_forM. intros f Hf.
    apply within_call; [rewrite (Hps f Hf); apply Nat.le_refl | auto | exact Hq].
  - apply within_call; [rewrite Hpu; apply Nat.le_refl | exact Hu | exact Hq].
Qed.

Variable c : Config.

Lemma seed_within :
  within (stage_event host c Seed) (fun _ => True) (stage_mark Seed) 1 (seed env c).
Proof.
  unfold seed, copy.
  destruct (base_img c) as [b|] eqn:Hb; [destruct (img c) as [i|] eqn:Hi|].
  all: cbn [getitem].
  all: eapply within_budget; [repeat within_step | simpl; lia].
  all: try exact I; try discriminate.
  all: simpl in *; simplify_eq; eauto.
Qed.

Lemma block_within (i : string) (st : Stage) :
  img c = Some i ->
  within (stage_event host c st) (fun _ => True) (stage_mark st) 1
         (block host env c i st).
Proof.
  intros Hi. destruct st; unfold block.
  - eapply within_budget;
      [eapply within_bind; [apply seed_within | intros ?; apply within_ret] | lia].
  - unfold hostInit, run. destruct (host_init c) as [hi|] eqn:Hh.
    all: eapply within_budget; [repeat within_step | simpl; lia].
    all: try exact I. simpl. eauto.
  - unfold fileOverlay. destruct (files c) as [fl|] eqn:Hf.
    + apply applyFiles_within; try exact I; try reflexivity; simpl; eauto 10.
    + eapply within_budget; [apply within_ret | lia].
  - unfold targetInit, generateBootScriptOverlay, launchQemu, check_call.
    destruct (init c) as [s|] eqn:Hs.
    + eapply within_budget; [|shelve].
      repeat within_step; try exact I.
      all: exists s, i; split; [exact Hs|]; split; [exact Hi|].
      all: unfold applicator_event; eauto 10.
      Unshelve. simpl. lia.
    + eapply within_budget; [apply within_ret | lia].
  - unfold runSpecInstall, generateBootScriptOverlay.
    destruct (runSpec c) as [spec|] eqn:Hr.
    + destruct (command spec) as [cmd|] eqn:Hc; [|destruct (path spec) as [p|] eqn:Hp].
      all: eapply within_budget; [|shelve].
      all: repeat within_step; try exact I.
      all: exists spec, i; split; [exact Hr|]; split; [exact Hi|].
      all: unfold applicator_event; eauto 10.
      Unshelve. all: simpl; lia.
    + eapply within_budget; [apply within_ret | lia].
Qed.
End StageFacts.

(** ** The assembly pipeline: what a successful state logs *)

(** Inverts the hypotheses that say a sequence of primitives returned. *)
Ltac ok_inv :=
  repeat match goal with
         | H : bind _ _ _ = (Ok _, _) |- _ =>
           let a := fresh "a" in let l := fresh "l" in let E := fresh "E" in
           apply bind_ok in H as (a & l & E & H)
         | H : call _ _ _ _ = (Ok _, _) |- _ =>
           let o := fresh "o" in let F := fresh "F" in
           apply call_ok in H as (o & -> & F)
         | H : call_path _ _ _ _ = (Ok _, _) |- _ => apply call_path_ok in H as ->
         | H : finally _ _ _ = (Ok _, _) |- _ =>
           let l := fresh "l" in let u := fresh "u" in let E := fresh "E" in
           apply finally_ok in H as (l & u & E & H)
         | H : when _ _ _ = (Ok _, _) |- _ =>
           let E := fresh "E" in apply when_ok in H as [[E ->]|[E H]]
         | H : lift _ _ = (Ok _, _) |- _ => unfold lift in H; simplify_eq
         | H : ret _ _ = _ |- _ => unfold ret in H; simplify_eq
         | H : raise _ _ = (Ok _, _) |- _ => discriminate H
         | H : exists_ _ _ _ = _ |- _ => unfold exists_ in H; simplify_eq
         | H : emit _ _ = _ |- _ => unfold emit in H; simplify_eq
         end.

Section StageOk.
Variable host : Host.
Variable env : Env.

Lemma forM_ok (fl : list FileSpec) (l l' : Log) (u : unit) :
  forM fl (fun f => run_shell env (rsync_cmd host f)) l = (Ok u, l') ->
  exists copies,
    l' = l ++ copies
    /\ map fst copies = map (fun f => EShell (rsync_cmd host f)) fl
    /\ succeeded copies.
Proof.
  revert l. induction fl as [|f fl IH]; intros l H; simpl in H.
  - ok_inv. exists []. rewrite app_nil_r. repeat split. constructor.
  - unfold run_shell in H. ok_inv. apply IH in H as (copies & -> & Hm & Hs).
    exists ((EShell (rsync_cmd host f), o) :: copies).
    rewrite <- app_assoc. repeat split; [simpl; f_equal; exact Hm|].
    constructor; assumption.
Qed.

Lemma applyFiles_ok (image : string) (fl : list FileSpec) (l l' : Log) (u : unit) :
  applyFiles host env image fl l = (Ok u, l') ->
  exists o1 copies o2,
    l' = l ++ (ERun (mount_cmd host image) None, o1)
           :: copies ++ [(ERun (umount_cmd host) None, o2)]
    /\ failed o1 = false /\ failed o2 = false
    /\ map fst copies = map (fun f => EShell (rsync_cmd host f)) fl
    /\ succeeded copies.
Proof.
  unfold applyFiles, run. intros H. ok_inv.
  match goal with
  | E : forM _ _ _ = _ |- _ => apply forM_ok in E as (copies & -> & Hm & Hs)
  end.
  eexists _, copies, _. split; [rewrite <- !app_assoc; reflexivity|].
  repeat split; assumption.
Qed.

Lemma applyOverlay_ok (image d : string) (l l' : Log) (u : unit) :
  applyOverlay host env image d l = (Ok u, l') ->
  exists seg, l' = l ++ seg /\ overlay_applied host image d seg.
Proof.
  unfold applyOverlay. intros H.
  apply applyFiles_ok in H as (o1 & copies & o2 & -> & F1 & F2 & Hm & Hs).
  destruct copies as [|[e o] [|? ?]]; try discriminate Hm.
  simpl in Hm. injection Hm as ->.
  eexists. split; [reflexivity|]. exists o1, o, o2.
  repeat split; try assumption. inversion Hs; assumption.
Qed.

Variable c : Config.

Lemma seed_ok (l l' : Log) (i : string) :
  seed env c l = (Ok i, l') ->
  exists b o, base_img c = Some b /\ img c = Some i
              /\ l' = l ++ [(ECopy b i, o)] /\ failed o = false.
Proof.
  unfold seed, copy. intros H. ok_inv.
  destruct (base_img c) as [b|], (img c) as [i'|]; try discriminate.
  simpl in *. simplify_eq. eauto 10.
Qed.

Lemma hostInit_ok (l l' : Log) (u : unit) :
  hostInit env c l = (Ok u, l') ->
  match host_init c with
  | Some hi => exists o, l' = l ++ [(ERun [hi] (Some (workdir c)), o)]
                         /\ failed o = false
  | None => l' = l
  end.
Proof.
  unfold hostInit, run. destruct (host_init c) as [hi|]; intros H; ok_inv; eauto.
Qed.

Lemma fileOverlay_ok (i : string) (l l' : Log) (u : unit) :
  fileOverlay host env c i l = (Ok u, l') ->
  match files c with
  | Some fl =>
    exists o1 copies o2,
      l' = l ++ (ERun (mount_cmd host i) None, o1)
             :: copies ++ [(ERun (umount_cmd host) None, o2)]
      /\ failed o1 = false /\ failed o2 = false
      /\ map fst copies = map (fun f => EShell (rsync_cmd host f)) fl
      /\ succeeded copies
  | None => l' = l
  end.
Proof.
  unfold fileOverlay. destruct (files c) as [fl|]; intros H.
  - apply applyFiles_ok in H. exact H.
  - ok_inv. reflexivity.
Qed.

Lemma targetInit_ok (i : string) (l l' : Log) (u : unit) :
  targetInit host env c i l = (Ok u, l') ->
  match init c with
  | Some s =>
    exists d1 A1 oq d2 A2,
      l' = l ++ ((EGenOverlay (builder c) (Some s), Returned d1) :: A1)
             ++ [(EPrint ("Launching: " +:+ bin c), Done);
                 (ECheckCall (qemu_cmd c false), oq)]
             ++ ((EGenOverlay (builder c) None, Returned d2) :: A2)
      /\ overlay_applied host i d1 A1
      /\ failed oq = false
      /\ overlay_applied host i d2 A2
  | None => l' = l
  end.
Proof.
  unfold targetInit, generateBootScriptOverlay, launchQemu, check_call.
  destruct (init c) as [s|]; intros H; ok_inv; try reflexivity.
  all: repeat match goal with
              | E : applyOverlay _ _ _ _ _ = _ |- _ =>
                let A := fresh "A" in let HA := fresh "HA" in
                apply applyOverlay_ok in E as (A & -> & HA)
              end.
  all: match goal with
       | H1 : overlay_applied _ _ _ ?A1, H2 : overlay_applied _ _ _ ?A2 |- _ =>
         eexists _, A1, _, _, A2;
         split; [rewrite <- !app_assoc; reflexivity|];
         repeat split; assumption
       end.
Qed.

Lemma runSpecInstall_ok (i : string) (l l' : Log) (u : unit) :
  runSpecInstall host env c i l = (Ok u, l') ->
  match runSpec c with
  | Some spec =>
    exists gen sp d A,
      l' = l ++ gen ++ (EGenOverlay (builder c) (Some sp), Returned d) :: A
      /\ overlay_applied host i d A
      /\ match command spec with
         | Some cmd => gen = [(EGenRunScript cmd, Returned sp)]
         | None => gen = [] /\ path spec = Some sp
         end
  | None => l' = l
  end.
Proof.
  unfold runSpecInstall, generateBootScriptOverlay.
  destruct (runSpec c) as [spec|]; intros H; [|ok_inv; reflexivity].
  destruct (command spec) as [cmd|]; [|destruct (path spec) as [p|]]; ok_inv.
  all: match goal with
       | E : applyOverlay _ _ _ _ _ = _ |- _ =>
         apply applyOverlay_ok in E as (A & -> & HA)
       end.
  - eexists [_], _, _, A.
    split; [rewrite <- !app_assoc; reflexivity|]. split; [assumption | reflexivity].
  - eexists [], _, _, A.
    split; [rewrite <- !app_assoc; reflexivity|]. repeat split; assumption.
Qed.
End StageOk.

(** ** The assembly pipeline: order of the states *)

Lemma count_map_none (p : Event -> bool) (seg : Log) :
  Forall (fun e => p e = false) (map fst seg) -> count p seg = 0.
Proof.
  unfold count. induction seg as [|en seg IH]; simpl; intros H; [reflexivity|].
  inversion H as [|? ? Hp Hr]; subst. rewrite Hp. apply IH. exact Hr.
Qed.

Section Pipeline.
Variable host : Host.
Variable env : Env.
Variable c : Config.

Lemma stage_unset_nil (st : Stage) (seg : Log) :
  Forall (fun en => stage_event host c st (fst en)) seg ->
  ~ stage_set c st -> seg = [].
Proof.
  intros F Hn. destruct seg as [|en seg]; [reflexivity|]. exfalso. apply Hn.
  inversion F as [|? ? He _]; subst.
  destruct st; simpl in *; [exact I | | | |].
  - destruct He as (x & -> & _). eauto.
  - destruct He as (x & y & -> & _). eauto.
  - destruct He as (x & y & -> & _). eauto.
  - destruct He as (x & y & -> & _). eauto.
Qed.

Lemma stage_run_nil (st : Stage) : stage_run host c st false [].
Proof.
  repeat split; [constructor | apply Nat.le_0_l | discriminate].
Qed.

Lemma seed_run (l : Log) :
  exists r seg,
    seed env c l = (r, l ++ seg)
    /\ (forall i, r = Ok i -> img c = Some i)
    /\ forall ok, (ok = true -> exists i, r = Ok i) -> stage_run host c Seed ok seg.
Proof.
  destruct (seed_within host env c l) as (seg & E & F & C & _).
  destruct (seed env c l) as [r l'] eqn:Hs. simpl in E. subst l'.
  exists r, seg. split; [reflexivity|]. split.
  - intros i ->. apply seed_ok in Hs as (b & o & _ & Hi & _). exact Hi.
  - intros ok Hok. repeat split; try assumption.
    + intros Hn. destruct Hn. exact I.
    + intros Ht _. destruct (Hok Ht) as [i ->].
      apply seed_ok in Hs as (b & o & _ & _ & Hl & _).
      apply app_inv_head in Hl. subst seg. reflexivity.
Qed.

Lemma block_run (i : string) (st : Stage) (l : Log) :
  img c = Some i -> st <> Seed ->
  exists r seg,
    block host env c i st l = (r, l ++ seg)
    /\ forall ok, (ok = true -> r = Ok tt) -> stage_run host c st ok seg.
Proof.
  intros Hi Hst.
  destruct (block_within host env c i st Hi l) as (seg & E & F & C & _).
  destruct (block host env c i st l) as [r l'] eqn:Hb. simpl in E. subst l'.
  exists r, seg. split; [reflexivity|]. intros ok Hok.
  split; [exact F|]. split; [exact C|]. split; [apply stage_unset_nil; exact F|].
  intros Ht Hset. rewrite (Hok Ht) in Hb. clear Hok Ht F C.
  destruct st; simpl in Hb, Hset; [congruence | | | |].
  - apply hostInit_ok in Hb. destruct Hset as [hi Hh]. rewrite Hh in Hb.
    destruct Hb as (o & Hl & _). apply app_inv_head in Hl. subst seg. reflexivity.
  - apply fileOverlay_ok in Hb. destruct Hset as [fl Hf]. rewrite Hf in Hb.
    destruct Hb as (o1 & copies & o2 & Hl & _ & _ & Hm & _).
    apply app_inv_head in Hl. subst seg.
    change (?x :: copies ++ ?y) with ([x] ++ copies ++ y).
    rewrite !count_app, (count_map_none _ copies); [reflexivity|].
    rewrite Hm. apply Forall_map, Forall_forall. reflexivity.
  - apply targetInit_ok in Hb. destruct Hset as [s Hs]. rewrite Hs in Hb.
    destruct Hb as (d1 & A1 & oq & d2 & A2 & Hl & HA1 & _ & HA2).
    apply app_inv_head in Hl. subst seg.
    destruct HA1 as (? & ? & ? & -> & _), HA2 as (? & ? & ? & -> & _).
    reflexivity.
  - apply runSpecInstall_ok in Hb. destruct Hset as [spec Hr]. rewrite Hr in Hb.
    destruct Hb as (gen & sp & d & A & Hl & HA & Hg).
    apply app_inv_head in Hl. subst seg.
    destruct HA as (? & ? & ? & -> & _).
    destruct (command spec); [subst gen | destruct Hg as [-> _]]; reflexivity.
Qed.

(** Closes the case of a pipeline that stopped at an exception. *)
Ltac aborted :=
  intros [|] ?Hok; [specialize (Hok eq_refl); discriminate|];
  repeat match goal with |- _ /\ _ => split end;
  first [ apply stage_run_nil
        | match goal with
          | R : forall ok, _ -> stage_run _ _ ?st ok ?s |- stage_run _ _ ?st _ ?s =>
            apply R; discriminate
          end ].

End Pipeline.

(** ** The assembly pipeline: the init script does not stay *)

Section BootHook.
Variable host : Host.

Lemma mount_step_mount (st : option string) (image : string) (o : Outcome) :
  failed o = false ->
  mount_step host st (ERun (mount_cmd host image) None, o) = Some image.
Proof.
  intros F. unfold mount_step. rewrite F.
  rewrite bool_decide_eq_false_2 by discriminate.
  unfold mount_cmd at 1. rewrite bool_decide_eq_true_2; reflexivity.
Qed.

Lemma hook_step_shell (image : string) (v : ImageView) (cmd : string) (o : Outcome)
      (d : string) (s : option string) (rest : list (string * option string)) :
  failed o = false ->
  mounted v = Some image ->
  overlays v = (d, s) :: rest ->
  cmd = rsync_cmd host (mkFileSpec (path_join d "*") "/") ->
  hook (hook_step host image v (EShell cmd, o)) = s.
Proof.
  intros F Hm Ho ->. unfold hook_step. cbn [hook]. rewrite F, Hm, Ho.
  rewrite bool_decide_eq_true_2 by reflexivity.
  cbn [List.find fst]. rewrite String.eqb_refl. reflexivity.
Qed.

(** Right after an overlay generated for [s] has been applied, the
    image's boot hook is [s], whatever the log before. *)
Lemma hook_after_overlay (image : string) (before : Log) (bld : string)
      (s : option string) (d : string) (A : Log) :
  overlay_applied host image d A ->
  boot_hook host image (before ++ (EGenOverlay bld s, Returned d) :: A) = s.
Proof.
  intros (o1 & o2 & o3 & -> & F1 & F2 & F3).
  unfold boot_hook. rewrite fold_left_app.
  set (v := fold_left (hook_step host image) before _).
  cbn [fold_left].
  change (hook (hook_step host image ?w (ERun ?argv ?cwd, ?o))) with (hook w).
  apply (hook_step_shell image _ _ o2 d s (overlays v)); [exact F2 | | | ].
  - change (mounted (hook_step host image ?w ?en))
      with (mount_step host (mounted w) en).
    apply mount_step_mount. exact F1.
  - reflexivity.
  - reflexivity.
Qed.
End BootHook.

Section InitScript.
Variable host : Host.
Variable env : Env.
Variable c : Config.

Lemma overlay_applied_quiet (image d : string) (A : Log) :
  overlay_applied host image d A -> count is_launch A = 0.
Proof. intros (o1 & o2 & o3 & -> & _). reflexivity. Qed.

(** The states before target-init do not boot the emulator. *)
Lemma hostInit_quiet (l l' : Log) (u : unit) :
  hostInit env c l = (Ok u, l') ->
  exists seg, l' = l ++ seg /\ count is_launch seg = 0.
Proof.
  intros H. apply hostInit_ok in H. destruct (host_init c).
  - destruct H as (o & -> & _). eexists. split; reflexivity.
  - subst l'. exists []. rewrite app_nil_r. split; reflexivity.
Qed.

Lemma fileOverlay_quiet (i : string) (l l' : Log) (u : unit) :
  fileOverlay host env c i l = (Ok u, l') ->
  exists seg, l' = l ++ seg /\ count is_launch seg = 0.
Proof.
  intros H. apply fileOverlay_ok in H. destruct (files c) as [fl|].
  - destruct H as (o1 & copies & o2 & -> & _ & _ & Hm & _).
    eexists. split; [reflexivity|].
    change (?x :: copies ++ ?y) with ([x] ++ copies ++ y).
    rewrite !count_app, (count_map_none _ copies); [reflexivity|].
    rewrite Hm. apply Forall_map, Forall_forall. reflexivity.
  - subst l'. exists []. rewrite app_nil_r. split; reflexivity.
Qed.

(** C1: a successful [makeImage] on a config with an init script
    applies the overlay generated for the script, boots the emulator,
    then generates the clearing overlay and applies it.  The emulator
    is booted once in the whole run.  The image's boot hook is the init
    script after the first application, is cleared by the second, and
    at the end is the run-spec script if a run spec is set and no hook
    otherwise. *)
Theorem init_script_cleared (s : string) (l l' : Log) :
  init c = Some s ->
  makeImage host env c l = (Ok tt, l') ->
  exists i pre d1 A1 oq d2 A2 post,
    img c = Some i
    /\ l' = l ++ pre
              ++ ((EGenOverlay (builder c) (Some s), Returned d1) :: A1)
              ++ [(EPrint ("Launching: " +:+ bin c), Done);
                  (ECheckCall (qemu_cmd c false), oq)]
              ++ ((EGenOverlay (builder c) None, Returned d2) :: A2)
              ++ post
    /\ overlay_applied host i d1 A1
    /\ failed oq = false
    /\ overlay_applied host i d2 A2
    /\ count is_launch pre = 0
    /\ count is_launch post = 0
    /\ boot_hook host i
         (l ++ pre ++ (EGenOverlay (builder c) (Some s), Returned d1) :: A1)
       = Some s
    /\ boot_hook host i
         (l ++ pre
            ++ ((EGenOverlay (builder c) (Some s), Returned d1) :: A1)
            ++ [(EPrint ("Launching: " +:+ bin c), Done);
                (ECheckCall (qemu_cmd c false), oq)]
            ++ (EGenOverlay (builder c) None, Returned d2) :: A2)
       = None
    /\ match runSpec c with
       | Some spec =>
         exists sp,
           boot_hook host i l' = Some sp
           /\ match command spec with
              | Some cmd => In (EGenRunScript cmd, Returned sp) post
              | None => path spec = Some sp
              end
       | None => post = [] /\ boot_hook host i l' = None
       end.
Proof.
  intros Hs H. unfold makeImage in H.
  apply bind_ok in H as (i & l1 & H1 & H).
  apply bind_ok in H as ([] & l2 & H2 & H).
  apply bind_ok in H as ([] & l3 & H3 & H).
  apply bind_ok in H as ([] & l4 & H4 & H5).
  apply seed_ok in H1 as (b & o & _ & Hi & -> & _).
  apply hostInit_quiet in H2 as (s2 & -> & Q2).
  apply fileOverlay_quiet in H3 as (s3 & -> & Q3).
  apply targetInit_ok in H4. rewrite Hs in H4.
  destruct H4 as (d1 & A1 & oq & d2 & A2 & -> & HA1 & Fq & HA2).
  apply runSpecInstall_ok in H5.
  set (pre := [(ECopy b i, o)] ++ s2 ++ s3).
  assert (Qpre : count is_launch pre = 0)
    by (unfold pre; rewrite !count_app, Q2, Q3; reflexivity).
  assert (Hpre : ((l ++ [(ECopy b i, o)]) ++ s2) ++ s3 = l ++ pre)
    by (unfold pre; rewrite <- !app_assoc; reflexivity).
  rewrite Hpre in *. clearbody pre. clear Hpre Q2 Q3.
  set (gen1 := (EGenOverlay (builder c) (Some s), Returned d1)) in *.
  set (gen2 := (EGenOverlay (builder c) None, Returned d2)) in *.
  set (boot := [(EPrint ("Launching: " +:+ bin c), Done);
                (ECheckCall (qemu_cmd c false), oq)]) in *.
  assert (Hhook1 : boot_hook host i (l ++ pre ++ gen1 :: A1) = Some s).
  { rewrite app_assoc. apply hook_after_overlay. exact HA1. }
  assert (Hhook2 :
    boot_hook host i (l ++ pre ++ (gen1 :: A1) ++ boot ++ gen2 :: A2) = None).
  { rewrite !app_assoc. apply hook_after_overlay. exact HA2. }
  destruct (runSpec c) as [spec|].
  - destruct H5 as (gen & sp & d & A & -> & HA & Hg).
    exists i, pre, d1, A1, oq, d2, A2,
      (gen ++ (EGenOverlay (builder c) (Some sp), Returned d) :: A).
    split; [exact Hi|]. split; [rewrite <- !app_assoc; reflexivity|].
    do 4 (split; [assumption|]).
    split.
    { rewrite count_app. change (?x :: A) with ([x] ++ A).
      rewrite count_app, (overlay_applied_quiet _ _ _ HA).
      destruct (command spec); [subst gen | destruct Hg as [-> _]]; reflexivity. }
    split; [exact Hhook1|]. split; [exact Hhook2|].
    exists sp. split.
    + rewrite app_assoc. apply hook_after_overlay. exact HA.
    + destruct (command spec); [subst gen; left; reflexivity | apply Hg].
  - subst l'. exists i, pre, d1, A1, oq, d2, A2, [].
    split; [exact Hi|].
    split; [rewrite !app_nil_r, <- !app_assoc; reflexivity|].
    do 4 (split; [assumption|]).
    split; [reflexivity|]. split; [exact Hhook1|]. split; [exact Hhook2|].
    split; [reflexivity|].
    rewrite <- !app_assoc, !app_assoc. apply hook_after_overlay. exact HA2.
Qed.
End InitScript.

Lemma init_script_cleared_witness :
  fst (makeImage host0 env_ok full_cfg []) = Ok tt
  /\ boot_hook host0 "full.img" (snd (makeImage host0 env_ok full_cfg []))
     = Some "run.sh".
Proof.
  split; [reflexivity|].
  destruct (init_script_cleared host0 env_ok full_cfg "init.sh" []
              (snd (makeImage host0 env_ok full_cfg [])) eq_refl eq_refl)
    as (i & pre & d1 & A1 & oq & d2 & A2 & post & Hi & _ & _ & _ & _ & _ & _ & _ & _ & Hend).
  cbn [full_cfg img runSpec command path] in Hi, Hend.
  destruct Hend as (sp & Hh & Hp).
  injection Hi as <-. injection Hp as <-. exact Hh.
Defined.

(** * Further properties of the script *)

(** ** The whole graph *)

Section GraphWhole.
Variable host : Host.

Lemma addDep_eq (w : list Task) (c : Config) :
  addDep host w c
  = match img c, initramfs c with
    | None, true => Raise (KeyError "img")
    | _, _ => Ok (w ++ new_tasks host c)
    end.
Proof.
  unfold addDep, new_tasks.
  destruct (img c) as [i|], (initramfs c); simpl; rewrite <- ?app_assoc; reflexivity.
Qed.

(** X1: [addDep] fails in one case only, the initramfs key on a config
    without an image, and then with [KeyError 'img']; in every other
    case it returns the task list it was given, extended at the end. *)
Theorem addDep_error_iff (w : list Task) (c : Config) :
  (forall e, addDep host w c = Raise e <->
             (initramfs c = true /\ img c = None /\ e = KeyError "img"))
  /\ (forall w', addDep host w c = Ok w' -> exists new, w' = w ++ new /\ new <> []).
Proof.
  rewrite addDep_eq. split.
  - intros e. destruct (img c) as [i|], (initramfs c); split;
      try discriminate; try (intros (? & ? & ?); discriminate).
    + intros [= <-]. auto.
    + intros (_ & _ & ->). reflexivity.
  - intros w' H. exists (new_tasks host c).
    split; [|discriminate].
    destruct (img c) as [i|], (initramfs c); try discriminate; congruence.
Qed.

Lemma buildable_dec (c : Config) : {buildable c} + {initramfs c = true /\ img c = None}.
Proof.
  unfold buildable. destruct (initramfs c), (img c) as [i|].
  - left. eauto.
  - right. split; reflexivity.
  - left. discriminate.
  - left. discriminate.
Qed.

Lemma addDep_buildable (w : list Task) (c : Config) :
  buildable c -> addDep host w c = Ok (w ++ new_tasks host c).
Proof.
  intros Hb. rewrite addDep_eq. unfold buildable in Hb.
  destruct (img c) as [i|], (initramfs c); try reflexivity.
  destruct Hb as [? [=]]. reflexivity.
Qed.

Lemma addDep_unbuildable (w : list Task) (c : Config) :
  ~ buildable c -> addDep host w c = Raise (KeyError "img").
Proof.
  intros Hb. rewrite addDep_eq. unfold buildable in Hb.
  destruct (img c) as [i|], (initramfs c); try reflexivity; exfalso; apply Hb; eauto.
  all: discriminate.
Qed.

Lemma addDeps_ok (w : list Task) (cs : list Config) :
  Forall buildable cs -> addDeps host w cs = Ok (w ++ flat_map (new_tasks host) cs).
Proof.
  revert w. induction cs as [|c cs IH]; intros w H; simpl.
  - rewrite app_nil_r. reflexivity.
  - inversion H as [|? ? Hc Hcs]; subst.
    rewrite (addDep_buildable _ _ Hc). simpl. rewrite (IH _ Hcs), <- app_assoc.
    reflexivity.
Qed.

Lemma addDeps_raise (w : list Task) (cs : list Config) :
  ~ Forall buildable cs -> addDeps host w cs = Raise (KeyError "img").
Proof.
  revert w. induction cs as [|c cs IH]; intros w H; simpl.
  - exfalso. apply H. constructor.
  - destruct (buildable_dec c) as [Hc|[Hr Hi]].
    + rewrite (addDep_buildable _ _ Hc). simpl. apply IH.
      intros Hcs. apply H. constructor; assumption.
    + rewrite addDep_unbuildable; [reflexivity|].
      intros Hb. destruct (Hb Hr) as [? [=]]. congruence.
Qed.

Lemma addWorkload_eq (w : list Task) (c : Config) :
  addWorkload host w c = addDeps host w (workload_configs c).
Proof.
  unfold addWorkload, workload_configs. simpl.
  destruct (addDep host w c) as [w'|e]; simpl; [|reflexivity].
  destruct (jobs c); reflexivity.
Qed.

Lemma Forall_buildable_dec (cs : list Config) :
  {Forall buildable cs} + {~ Forall buildable cs}.
Proof.
  induction cs as [|c cs [IH|IH]].
  - left. constructor.
  - destruct (buildable_dec c) as [Hc|[Hr Hi]].
    + left. constructor; assumption.
    + right. intros H. inversion H as [|? ? Hb _]; subst.
      destruct (Hb Hr) as [? [=]]. congruence.
  - right. intros H. inversion H; subst. contradiction.
Qed.

(** The configs behind a list of keys. *)
Lemma addWorkloads_eq (cfgs : gmap string Config) (w : list Task) (keys : list string) :
  (forall k, In k keys -> is_Some (cfgs !! k)) ->
  addWorkloads host cfgs w keys
  = addDeps host w
      (flat_map (fun k => match cfgs !! k with
                          | Some c => workload_configs c
                          | None => []
                          end) keys).
Proof.
  revert w. induction keys as [|k keys IH]; intros w Hk; [reflexivity|].
  destruct (Hk k) as [c Hc]; [left; reflexivity|].
  cbn [addWorkloads flat_map]. rewrite Hc. cbn [getitem res_bind].
  rewrite addWorkload_eq.
  destruct (Forall_buildable_dec (workload_configs c)) as [Hb|Hb].
  - rewrite (addDeps_ok _ _ Hb). cbn [res_bind].
    rewrite IH by (intros k' Hk'; apply Hk; right; exact Hk').
    set (rest := flat_map _ keys).
    destruct (Forall_buildable_dec rest) as [Hr|Hr].
    + rewrite !addDeps_ok; [|apply Forall_app; split; assumption | exact Hr].
      rewrite flat_map_app, app_assoc. reflexivity.
    + rewrite !addDeps_raise; [reflexivity | | exact Hr].
      intros H. apply Forall_app in H. tauto.
  - rewrite (addDeps_raise _ _ Hb). cbn [res_bind].
    rewrite addDeps_raise; [reflexivity|].
    intros H. apply Forall_app in H. tauto.
Qed.

Lemma distroTasks_ok (cfgs : gmap string Config) (w : list Task) (ds : list string) :
  (forall d, In d ds -> is_Some (cfgs !! d)) ->
  distroTasks cfgs w ds
  = Ok (w ++ flat_map (fun d => match cfgs !! d with
                                | Some dCfg => match img dCfg with
                                               | Some i => [distro_rule dCfg i]
                                               | None => []
                                               end
                                | None => []
                                end) ds).
Proof.
  revert w. induction ds as [|d ds IH]; intros w H.
  - simpl. rewrite app_nil_r. reflexivity.
  - destruct (H d) as [dCfg Hd]; [left; reflexivity|].
    cbn [distroTasks flat_map]. rewrite Hd. cbn [getitem res_bind].
    rewrite IH by (intros d' Hd'; apply H; right; exact Hd').
    destruct (img dCfg); [rewrite <- app_assoc|]; reflexivity.
Qed.

(** The first distro that is not loaded stops the construction. *)
Lemma distroTasks_raise (cfgs : gmap string Config) (w : list Task) (ds : list string) :
  (exists d, In d ds /\ cfgs !! d = None) ->
  exists d, In d ds /\ cfgs !! d = None /\ distroTasks cfgs w ds = Raise (KeyError d).
Proof.
  revert w. induction ds as [|d ds IH]; intros w (d0 & Hin & Hd0); [destruct Hin|].
  cbn [distroTasks]. destruct (cfgs !! d) as [dCfg|] eqn:Hd.
  - cbn [getitem res_bind].
    destruct Hin as [->|Hin]; [congruence|].
    destruct (IH (match img dCfg with
                  | Some i => w ++ [mkTask i [ActBuildBaseImage (builder dCfg)] [i]
                                           [] [] [builder dCfg]]
                  | None => w
                  end)) as (d1 & H1 & H2 & H3); [eauto|].
    exists d1. split; [right; exact H1|]. split; [exact H2 | exact H3].
  - exists d. split; [left; reflexivity|]. split; [exact Hd | reflexivity].
Qed.

Lemma distros_loaded_dec (cfgs : gmap string Config) (ds : list string) :
  {forall d, In d ds -> is_Some (cfgs !! d)} + {exists d, In d ds /\ cfgs !! d = None}.
Proof.
  induction ds as [|d ds [IH|IH]].
  - left. intros d [].
  - destruct (cfgs !! d) as [c|] eqn:Hd.
    + left. intros d' [<-|H]; [eauto | apply IH; exact H].
    + right. exists d. split; [left; reflexivity | exact Hd].
  - right. destruct IH as (d' & H1 & H2). exists d'. split; [right; exact H1 | exact H2].
Qed.

Lemma graph_keys_loaded (cfgs : gmap string Config) (k : string) :
  In k (elements (dom cfgs ∖ (list_to_set (distros host) : gset string))) <->
  is_Some (cfgs !! k) /\ ~ In k (distros host).
Proof.
  rewrite <- list_elem_of_In, elem_of_elements, elem_of_difference,
    elem_of_dom, elem_of_list_to_set, list_elem_of_In.
  reflexivity.
Qed.

(** When [buildDepGraph] returns: every distro is loaded, every config
    it visits is buildable, and the graph is the distro tasks followed
    by the tasks of the visited configs. *)
Lemma buildDepGraph_ok (cfgs : gmap string Config) (g : list Task) :
  buildDepGraph host cfgs = Ok g ->
  (forall d, In d (distros host) -> is_Some (cfgs !! d))
  /\ Forall buildable (graph_configs host cfgs)
  /\ g = distro_tasks host cfgs ++ flat_map (new_tasks host) (graph_configs host cfgs).
Proof.
  unfold buildDepGraph. intros H.
  destruct (distros_loaded_dec cfgs (distros host)) as [Hd|Hd].
  - rewrite (distroTasks_ok _ _ _ Hd) in H. cbn [res_bind app] in H.
    rewrite addWorkloads_eq in H
      by (intros k Hk; apply graph_keys_loaded in Hk; tauto).
    fold (graph_configs host cfgs) in H. fold (distro_tasks host cfgs) in H.
    destruct (Forall_buildable_dec (graph_configs host cfgs)) as [Hb|Hb].
    + rewrite (addDeps_ok _ _ Hb) in H. injection H as <-. auto.
    + rewrite (addDeps_raise _ _ Hb) in H. discriminate.
  - destruct (distroTasks_raise cfgs [] (distros host) Hd) as (d & _ & _ & Hr).
    rewrite Hr in H. discriminate.
Qed.

Lemma in_graph_configs (cfgs : gmap string Config) (c' : Config) :
  In c' (graph_configs host cfgs) <->
  exists k c, cfgs !! k = Some c /\ ~ In k (distros host)
              /\ In c' (workload_configs c).
Proof.
  unfold graph_configs. rewrite in_flat_map. split.
  - intros (k & Hk & Hc). apply graph_keys_loaded in Hk as [[c Hl] Hn].
    rewrite Hl in Hc. eauto.
  - intros (k & c & Hl & Hn & Hc). exists k. split.
    + apply graph_keys_loaded. eauto.
    + rewrite Hl. exact Hc.
Qed.

(** X2: the graph [buildDepGraph] returns holds exactly the base-image
    task of every distro that has an image, and the tasks [addDep] makes
    for every config loaded under a non-distro key and for every job of
    such a config; nothing else is in it. *)
Theorem buildDepGraph_tasks (cfgs : gmap string Config) (g : list Task) :
  buildDepGraph host cfgs = Ok g ->
  forall t, In t g <->
    (exists d dCfg i, In d (distros host) /\ cfgs !! d = Some dCfg
                      /\ img dCfg = Some i /\ t = distro_rule dCfg i)
    \/ (exists k c c', cfgs !! k = Some c /\ ~ In k (distros host)
                       /\ In c' (workload_configs c) /\ In t (new_tasks host c')).
Proof.
  intros H t. apply buildDepGraph_ok in H as (_ & _ & ->).
  rewrite in_app_iff. unfold distro_tasks. rewrite !in_flat_map.
  split; intros [H|H].
  - left. destruct H as (d & Hd & Ht).
    destruct (cfgs !! d) as [dCfg|] eqn:Hl; [|destruct Ht].
    destruct (img dCfg) as [i|] eqn:Hi; [|destruct Ht].
    destruct Ht as [<-|[]]. eauto 10.
  - right. destruct H as (c' & Hc & Ht).
    apply in_graph_configs in Hc as (k & c & ? & ? & ?). eauto 10.
  - left. destruct H as (d & dCfg & i & Hd & Hl & Hi & ->).
    exists d. split; [exact Hd|]. rewrite Hl, Hi. left. reflexivity.
  - right. destruct H as (k & c & c' & Hl & Hn & Hc & Ht).
    exists c'. split; [|exact Ht]. apply in_graph_configs. eauto.
Qed.

(** X3: in the graph every task has exactly one target, its own name:
    the name other tasks depend on is the path the task produces. *)
Theorem graph_targets_are_names (cfgs : gmap string Config) (g : list Task) (t : Task) :
  buildDepGraph host cfgs = Ok g -> In t g -> targets t = [task_name t].
Proof.
  intros H Ht. apply buildDepGraph_ok in H as (_ & _ & ->).
  apply in_app_iff in Ht as [Ht|Ht].
  - unfold distro_tasks in Ht. apply in_flat_map in Ht as (d & _ & Ht).
    destruct (cfgs !! d) as [dCfg|]; [|destruct Ht].
    destruct (img dCfg); [|destruct Ht]. destruct Ht as [<-|[]]. reflexivity.
  - apply in_flat_map in Ht as (c & _ & Ht). unfold new_tasks in Ht.
    destruct Ht as [<-|Ht]; [reflexivity|].
    destruct (img c); [|destruct Ht].
    apply in_app_iff in Ht as [Ht|[<-|[]]]; [|reflexivity].
    destruct (initramfs c); [|destruct Ht]. destruct Ht as [<-|[]]. reflexivity.
Qed.

(** X4: [buildDepGraph] raises [KeyError] on a distro that is not among
    the loaded configs, whatever else is loaded; no graph is made. *)
Theorem buildDepGraph_missing_distro (cfgs : gmap string Config) (d : string) :
  In d (distros host) -> cfgs !! d = None ->
  exists d', In d' (distros host) /\ cfgs !! d' = None
             /\ buildDepGraph host cfgs = Raise (KeyError d').
Proof.
  intros Hd Hl. unfold buildDepGraph.
  destruct (distroTasks_raise cfgs [] (distros host)) as (d' & H1 & H2 & H3); [eauto|].
  exists d'. rewrite H3. auto.
Qed.

(** The graph cannot be built over a config that is not buildable. *)
Lemma buildDepGraph_unbuildable (cfgs : gmap string Config) (k : string) (c c' : Config) :
  (forall d, In d (distros host) -> is_Some (cfgs !! d)) ->
  cfgs !! k = Some c -> ~ In k (distros host) ->
  In c' (workload_configs c) -> ~ buildable c' ->
  buildDepGraph host cfgs = Raise (KeyError "img").
Proof.
  intros Hd Hl Hn Hc Hb. unfold buildDepGraph.
  rewrite (distroTasks_ok _ _ _ Hd). cbn [res_bind app].
  rewrite addWorkloads_eq by (intros k' Hk; apply graph_keys_loaded in Hk; tauto).
  apply addDeps_raise. intros HF. apply Hb.
  rewrite Forall_forall in HF. apply HF.
  apply list_elem_of_In. apply (in_graph_configs cfgs c'). eauto.
Qed.
End GraphWhole.

(** ** Builds *)

Section BuildFacts.
Variable host : Host.

Lemma assoc_get_In {A} (k : string) (l : list (string * A)) (a : A) :
  assoc_get k l = Some a -> In a (map snd l).
Proof.
  induction l as [|[k' a'] l IH]; simpl; [discriminate|].
  destruct (String.eqb k k'); [intros [= ->]; left; reflexivity | right; auto].
Qed.

(** Every name [handleBuild] puts on its lists for a buildable config
    is the name and target of one of the config's tasks. *)
Lemma requested_defined (c : Config) (t : string) :
  buildable c -> In t (bins_of c ++ imgs_of c) ->
  exists task, In task (new_tasks host c) /\ task_name task = t /\ targets task = [t].
Proof.
  unfold buildable, bins_of, imgs_of, new_tasks. intros Hb Ht.
  destruct Ht as [<-|Ht]; [exists (bin_rule c); repeat split; left; reflexivity|].
  destruct (initramfs c).
  - destruct Hb as [i Hi]; [reflexivity|]. rewrite Hi in *.
    destruct Ht as [<-|[<-|[]]].
    + exists (initramfs_rule c i). repeat split. right. left. reflexivity.
    + exists (img_rule host c i). repeat split. right. right. left. reflexivity.
  - destruct (img c) as [i|]; [|destruct Ht]. destruct Ht as [<-|[]].
    exists (img_rule host c i). repeat split. right. left. reflexivity.
Qed.

Lemma in_requested_all (c : Config) (js : list (string * Config)) (t : string) :
  In t ((bins_of c ++ flat_map (fun j => bins_of (snd j)) js)
        ++ (imgs_of c ++ flat_map (fun j => imgs_of (snd j)) js)) ->
  exists c', In c' (c :: map snd js) /\ In t (bins_of c' ++ imgs_of c').
Proof.
  rewrite !in_app_iff, !in_flat_map.
  intros [[Ht|(j & Hj & Ht)]|[Ht|(j & Hj & Ht)]].
  - exists c. split; [left; reflexivity | apply in_app_iff; auto].
  - exists (snd j). split; [right; apply in_map; exact Hj | apply in_app_iff; auto].
  - exists c. split; [left; reflexivity | apply in_app_iff; auto].
  - exists (snd j). split; [right; apply in_map; exact Hj | apply in_app_iff; auto].
Qed.

Lemma in_requested_one (c jc : Config) (t : string) :
  In t ((bins_of c ++ bins_of jc) ++ (imgs_of c ++ imgs_of jc)) ->
  exists c', In c' [c; jc] /\ In t (bins_of c' ++ imgs_of c').
Proof.
  rewrite !in_app_iff. intros [[Ht|Ht]|[Ht|Ht]].
  - exists c. split; [left; reflexivity | apply in_app_iff; auto].
  - exists jc. split; [right; left; reflexivity | apply in_app_iff; auto].
  - exists c. split; [left; reflexivity | apply in_app_iff; auto].
  - exists jc. split; [right; left; reflexivity | apply in_app_iff; auto].
Qed.

(** What a returning [handleBuild] asks doit for: the names of the
    target config and of the jobs it selected. *)
Lemma handleBuild_requests (args : Args) (cfgs : gmap string Config) (l l' : Log) :
  handleBuild host args cfgs l = (Ok tt, l') ->
  exists g c ts,
    buildDepGraph host cfgs = Ok g
    /\ cfgs !! arg_config_file args = Some c
    /\ l' = l ++ [(EDoit g ts, Done)]
    /\ forall t, In t ts ->
         exists c', In c' (workload_configs c) /\ In t (bins_of c' ++ imgs_of c').
Proof.
  intros H. unfold handleBuild in H.
  apply bind_ok in H as (g & l1 & Hg & H).
  apply bind_ok in H as (c & l2 & Hc & H).
  apply bind_ok in H as (ls & l3 & Hl & H).
  unfold lift, emit in *.
  injection Hg as Hg <-. injection Hc as Hc <-. injection H as <-.
  destruct (cfgs !! arg_config_file args) as [c0|] eqn:Hlook; [|discriminate].
  injection Hc as ->.
  unfold workload_configs.
  destruct (jobs c) as [js|] eqn:Hjobs; [destruct (job_is_all (arg_job args))|].
  - unfold ret in Hl. injection Hl as <- <-.
    exists g, c. eexists. rewrite Hjobs. repeat split; [exact Hg|].
    intros t Ht. apply in_requested_all. exact Ht.
  - apply bind_ok in Hl as (jc & l4 & Hj & Hl).
    unfold ret, lift in *. injection Hj as Hj <-. injection Hl as <- <-.
    exists g, c. eexists. rewrite Hjobs. repeat split; [exact Hg|].
    intros t Ht. apply in_requested_one in Ht as (c' & Hc' & Ht).
    exists c'. split; [|exact Ht].
    destruct Hc' as [<-|[<-|[]]]; [left; reflexivity|]. right.
    unfold job_lookup in Hj. destruct (arg_job args) as [s|]; [|discriminate].
    destruct (assoc_get s js) as [jc'|] eqn:Ha; [|discriminate].
    injection Hj as ->. eapply assoc_get_In. exact Ha.
  - unfold ret in Hl. injection Hl as <- <-.
    exists g, c. eexists. rewrite Hjobs. repeat split; [exact Hg|].
    intros t Ht. exists c. split; [left; reflexivity | exact Ht].
Qed.

(** X5: when a build of a non-distro target gets as far as doit, every
    target it asks doit for is the name and the declared target of a
    task of the graph it hands over. *)
Theorem handleBuild_targets_defined
        (args : Args) (cfgs : gmap string Config) (l l' : Log) :
  ~ In (arg_config_file args) (distros host) ->
  handleBuild host args cfgs l = (Ok tt, l') ->
  exists g ts,
    l' = l ++ [(EDoit g ts, Done)]
    /\ forall t, In t ts ->
         exists task, In task g /\ task_name task = t /\ targets task = [t].
Proof.
  intros Hn H.
  apply handleBuild_requests in H as (g & c & ts & Hg & Hlook & -> & Hts).
  exists g, ts. split; [reflexivity|]. intros t Ht.
  destruct (Hts t Ht) as (c' & Hc' & Hin).
  apply buildDepGraph_ok in Hg as (_ & Hall & ->).
  assert (Hgc : In c' (graph_configs host cfgs)) by (apply in_graph_configs; eauto).
  assert (Hb : buildable c').
  { rewrite Forall_forall in Hall. apply Hall. apply list_elem_of_In. exact Hgc. }
  destruct (requested_defined c' t Hb Hin) as (task & H1 & H2 & H3).
  exists task. split; [|auto]. apply in_app_iff. right. apply in_flat_map. eauto.
Qed.
End BuildFacts.

(** ** Jobs and launches through [main] *)

Lemma job_key_not_all (c : Config) (j : string) : job_key c j <> "all".
Proof.
  unfold job_key. destruct (name c) as [|a [|b [|d [|e nm]]]]; simpl; intros H;
    inversion H.
Qed.

Section MainFacts.
Variable host : Host.
Variable env : Env.

(** [main] on a target with jobs and a job name: the handler is called
    with the namespaced name and nothing is printed. *)
Lemma main_with_job (args : Args) (cfgs : gmap string Config) (c : Config)
      (js : list (string * Config)) (j : string) (l : Log) :
  cfgs !! arg_config_file args = Some c ->
  jobs c = Some js ->
  arg_initramfs args = false ->
  arg_job args = Some j ->
  j <> "all" ->
  main host env args cfgs l
  = func host env (set_job args (Some (job_key c j)))
         (set_job args (Some (job_key c j))) cfgs l.
Proof.
  intros Hc Hj Hi Ha Hn. unfold main, bind, lift. rewrite Hc. cbn [getitem].
  rewrite Hi. cbn [flag_initramfs]. rewrite Ha. cbn [job_is_all].
  apply String.eqb_neq in Hn. rewrite Hn. cbn [negb]. rewrite Hj.
  cbn [str_add ret]. rewrite insert_id by exact Hc.
  reflexivity.
Qed.

(** X6: [launch -j j] on a target with jobs boots, under qemu, the job
    stored under the key [<name>-<j>]; if there is no such job it raises
    [KeyError] on that key and nothing is run. *)
Theorem launch_job (args : Args) (cfgs : gmap string Config) (c : Config)
        (js : list (string * Config)) (j : string) (l : Log) :
  cfgs !! arg_config_file args = Some c ->
  jobs c = Some js ->
  arg_command args = Launch ->
  arg_spike args = false ->
  arg_initramfs args = false ->
  arg_job args = Some j ->
  j <> "all" ->
  main host env args cfgs l
  = match assoc_get (job_key c j) js with
    | Some jCfg => launchQemu env jCfg false l
    | None => (Raise (KeyError (job_key c j)), l)
    end.
Proof.
  intros Hc Hj Hcmd Hs Hi Ha Hn.
  rewrite (main_with_job args cfgs c js j l Hc Hj Hi Ha Hn).
  unfold func. cbn [arg_command set_job]. rewrite Hcmd.
  unfold handleLaunch, bind at 1 2, lift.
  cbn [arg_config_file arg_job arg_spike arg_initramfs set_job].
  rewrite Hc. cbn [getitem]. rewrite Hj. cbn [job_is_all].
  rewrite (proj2 (String.eqb_neq _ _) (job_key_not_all c j)).
  cbn [negb job_lookup].
  destruct (assoc_get (job_key c j) js) as [jCfg|]; cbn [getitem].
  - rewrite Hs, Hi. reflexivity.
  - reflexivity.
Qed.

(** X7: [build -j j] with a job name the target does not have raises
    [KeyError] on [<name>-<j>] once the graph is built; doit is not
    called. *)
Theorem build_unknown_job (args : Args) (cfgs : gmap string Config) (c : Config)
        (js : list (string * Config)) (j : string) (g : list Task) (l : Log) :
  cfgs !! arg_config_file args = Some c ->
  jobs c = Some js ->
  arg_command args = Build ->
  arg_initramfs args = false ->
  arg_job args = Some j ->
  j <> "all" ->
  assoc_get (job_key c j) js = None ->
  buildDepGraph host cfgs = Ok g ->
  main host env args cfgs l = (Raise (KeyError (job_key c j)), l).
Proof.
  intros Hc Hj Hcmd Hi Ha Hn Hnone Hg.
  rewrite (main_with_job args cfgs c js j l Hc Hj Hi Ha Hn).
  unfold func. cbn [arg_command set_job]. rewrite Hcmd.
  unfold handleBuild, bind, lift.
  cbn [arg_config_file arg_job set_job].
  rewrite Hg, Hc. cbn [getitem]. rewrite Hj. cbn [job_is_all].
  rewrite (proj2 (String.eqb_neq _ _) (job_key_not_all c j)).
  cbn [job_lookup]. rewrite Hnone. reflexivity.
Qed.

(** X8: [-j] given without a value leaves no job name, and [main] then
    raises [TypeError] while building the job name or the message,
    whether the target has jobs or not; no handler is called. *)
Theorem main_job_without_value (args : Args) (cfgs : gmap string Config)
        (c : Config) (l : Log) :
  cfgs !! arg_config_file args = Some c ->
  arg_job args = None ->
  main host env args cfgs l = (Raise TypeError, l).
Proof.
  intros Hc Ha. unfold main, bind, lift. rewrite Hc. cbn [getitem].
  rewrite Ha. cbn [job_is_all negb str_add].
  destruct (jobs (flag_initramfs (arg_initramfs args) c)); reflexivity.
Qed.

(** With the job left at ['all'] a launch works on the target config. *)
Lemma handleLaunch_all (args : Args) (cfgs : gmap string Config) (c : Config) (l : Log) :
  cfgs !! arg_config_file args = Some c ->
  arg_job args = Some "all" ->
  handleLaunch env args cfgs l
  = (if arg_spike args then
       when (bool_decide (is_Some (img c)) && negb (initramfs c))
            (raise (SystemExit spike_exit_msg)) ;;
       launchSpike env c (arg_initramfs args)
     else launchQemu env c (arg_initramfs args)) l.
Proof.
  intros Hc Ha. unfold handleLaunch, bind at 1 2, lift.
  rewrite Hc. cbn [getitem]. rewrite Ha. destruct (jobs c); reflexivity.
Qed.

Lemma main_all (args : Args) (cfgs : gmap string Config) (c : Config) (l : Log) :
  cfgs !! arg_config_file args = Some c ->
  arg_job args = Some "all" ->
  main host env args cfgs l
  = func host env args args
         (<[arg_config_file args := flag_initramfs (arg_initramfs args) c]> cfgs) l.
Proof.
  intros Hc Ha. unfold main, bind, lift. rewrite Hc. cbn [getitem]. rewrite Ha.
  reflexivity.
Qed.

(** X9: [launch -s] on the base workload.  With [-i] spike always runs
    [bin-initramfs].  Without it, a config with no image runs the same
    binary; a config with an image and no initramfs key stops with
    [SystemExit]; a config with an image and the key raises the
    [ValueError] of [launchSpike].  In the last two cases nothing is
    run. *)
Theorem launch_spike_base (args : Args) (cfgs : gmap string Config)
        (c : Config) (l : Log) :
  cfgs !! arg_config_file args = Some c ->
  arg_command args = Launch ->
  arg_spike args = true ->
  arg_job args = Some "all" ->
  (arg_initramfs args = true ->
     main host env args cfgs l = check_call env (spike_cmd c) l)
  /\ (arg_initramfs args = false -> img c = None ->
        main host env args cfgs l = check_call env (spike_cmd c) l)
  /\ (arg_initramfs args = false -> is_Some (img c) -> initramfs c = false ->
        main host env args cfgs l = (Raise (SystemExit spike_exit_msg), l))
  /\ (arg_initramfs args = false -> is_Some (img c) -> initramfs c = true ->
        main host env args cfgs l
        = (Raise (ValueError "Spike does not support disk-based configurations"), l)).
Proof.
  intros Hc Hcmd Hs Ha.
  rewrite (main_all args cfgs c l Hc Ha). unfold func. rewrite Hcmd.
  rewrite (handleLaunch_all args _ (flag_initramfs (arg_initramfs args) c) l)
    by (rewrite ?lookup_insert_eq; trivial).
  rewrite Hs. unfold bind, when, launchSpike.
  repeat split.
  - intros Hi. rewrite Hi.
    assert (Hr : initramfs (flag_initramfs true c) = true) by reflexivity.
    rewrite Hr, andb_false_r. reflexivity.
  - intros Hi Him. rewrite Hi. cbn [flag_initramfs]. rewrite Him.
    rewrite bool_decide_eq_false_2 by (intros [? [=]]). reflexivity.
  - intros Hi Him Hr. rewrite Hi. cbn [flag_initramfs]. rewrite Hr.
    rewrite bool_decide_eq_true_2 by exact Him. reflexivity.
  - intros Hi Him Hr. rewrite Hi. cbn [flag_initramfs]. rewrite Hr.
    rewrite andb_false_r, bool_decide_eq_true_2 by exact Him. reflexivity.
Qed.

(** X10: [build -i] on a target that has no image never reaches doit:
    the initramfs key the flag sets makes [addDep] raise
    [KeyError 'img'] while the graph is built. *)
Theorem build_initramfs_without_image
        (args : Args) (cfgs : gmap string Config) (c : Config) (l : Log) :
  cfgs !! arg_config_file args = Some c ->
  img c = None ->
  arg_command args = Build ->
  arg_initramfs args = true ->
  arg_job args = Some "all" ->
  ~ In (arg_config_file args) (distros host) ->
  (forall d, In d (distros host) -> is_Some (cfgs !! d)) ->
  main host env args cfgs l = (Raise (KeyError "img"), l).
Proof.
  intros Hc Him Hcmd Hi Ha Hn Hd.
  rewrite (main_all args cfgs c l Hc Ha). unfold func. rewrite Hcmd, Hi.
  unfold handleBuild, bind, lift.
  rewrite (buildDepGraph_unbuildable host _ (arg_config_file args)
             (flag_initramfs true c) (flag_initramfs true c)); [reflexivity | | | | |].
  - intros d Hin. destruct (decide (d = arg_config_file args)) as [->|Hne].
    + rewrite lookup_insert_eq. eauto.
    + rewrite lookup_insert_ne by congruence. apply Hd. exact Hin.
  - apply lookup_insert_eq.
  - exact Hn.
  - left. reflexivity.
  - unfold buildable. cbn [flag_initramfs set_initramfs set_jobs initramfs img].
    rewrite Him. intros H. destruct (H eq_refl) as [? [=]].
Qed.
End MainFacts.

(** ** More on the overlay applicator *)

Section ApplyMore.
Variable host : Host.
Variable env : Env.

(** The copy loop on any outcome: the files are taken in order, and the
    first copy that fails ends the loop. *)
Lemma forM_copies (fl : list FileSpec) (l : Log) :
  exists r done rest good bad,
    fl = done ++ rest
    /\ forM fl (fun f => run_shell env (rsync_cmd host f)) l = (r, l ++ good ++ bad)
    /\ map fst (good ++ bad) = map (fun f => EShell (rsync_cmd host f)) done
    /\ succeeded good
    /\ ((bad = [] /\ rest = [] /\ r = Ok tt)
        \/ (exists e o, bad = [(e, o)] /\ failed o = true
                        /\ r = Raise CalledProcessError)).
Proof.
  revert l. induction fl as [|f fl IH]; intros l.
  - exists (Ok tt), [], [], [], [].
    split; [reflexivity|]. split; [cbn; rewrite app_nil_r; reflexivity|].
    split; [reflexivity|]. split; [constructor | left; auto].
  - cbn [forM]. unfold bind, run_shell at 1, call.
    destruct (failed (respond env l (EShell (rsync_cmd host f)))) eqn:F.
    + exists (Raise CalledProcessError), [f], fl, [],
        [(EShell (rsync_cmd host f), respond env l (EShell (rsync_cmd host f)))].
      split; [reflexivity|]. split; [reflexivity|]. split; [reflexivity|].
      split; [constructor | right; eauto].
    + destruct (IH (l ++ [(EShell (rsync_cmd host f),
                           respond env l (EShell (rsync_cmd host f)))]))
        as (r & done & rest & good & bad & -> & E & Hm & Hs & Hr).
      exists r, (f :: done), rest,
        ((EShell (rsync_cmd host f), respond env l (EShell (rsync_cmd host f))) :: good),
        bad.
      split; [reflexivity|]. split; [rewrite E, <- app_assoc; reflexivity|].
      split; [simpl; f_equal; exact Hm|].
      split; [constructor; assumption | exact Hr].
Qed.

(** X11: [applyFiles] copies the files in the order of the list and
    stops at the first copy that fails: the files after it are not
    copied, the umount is still run, and the call raises. *)
Theorem applyFiles_copies_in_order (image : string) (fl : list FileSpec) (l : Log) :
  failed (respond env l (ERun (mount_cmd host image) None)) = false ->
  exists r done rest good bad o,
    fl = done ++ rest
    /\ applyFiles host env image fl l
       = (r, l ++ (ERun (mount_cmd host image) None,
                   respond env l (ERun (mount_cmd host image) None))
               :: (good ++ bad) ++ [(ERun (umount_cmd host) None, o)])
    /\ map fst (good ++ bad) = map (fun f => EShell (rsync_cmd host f)) done
    /\ succeeded good
    /\ ((bad = [] /\ rest = [])
        \/ (exists e o', bad = [(e, o')] /\ failed o' = true /\ r <> Ok tt)).
Proof.
  intros Hm. unfold applyFiles, bind, run at 1, call at 1. rewrite Hm.
  match goal with |- context [finally _ _ ?l0] => set (l1 := l0) end.
  destruct (forM_copies fl l1) as (r & done & rest & good & bad & -> & E & Hmap & Hs & Hr).
  unfold finally, run, call. rewrite E.
  set (o := respond env (l1 ++ good ++ bad) (ERun (umount_cmd host) None)).
  exists (if failed o then Raise CalledProcessError else r), done, rest, good, bad, o.
  split; [reflexivity|]. split.
  { unfold l1. rewrite <- !app_assoc. destruct (failed o); reflexivity. }
  split; [exact Hmap|]. split; [exact Hs|].
  destruct Hr as [(-> & -> & ->)|(e & o' & -> & F & ->)]; [left; auto|].
  right. exists e, o'. repeat split; [exact F|]. destruct (failed o); discriminate.
Qed.

(** *** The mount point is left free *)

Lemma keeps_ret {A} (I : Log -> Prop) (a : A) : keeps I (ret a).
Proof. intros l H. exact H. Qed.

Lemma keeps_raise {A} (I : Log -> Prop) (e : Exn) : keeps I (raise e : M A).
Proof. intros l H. exact H. Qed.

Lemma keeps_lift {A} (I : Log -> Prop) (r : Res A) : keeps I (lift r).
Proof. intros l H. exact H. Qed.

Lemma keeps_exists (I : Log -> Prop) (p : string) : keeps I (exists_ env p).
Proof. intros l H. exact H. Qed.

Lemma keeps_bind {A B} (I : Log -> Prop) (m : M A) (k : A -> M B) :
  keeps I m -> (forall a, keeps I (k a)) -> keeps I (bind m k).
Proof.
  intros Hm Hk l H. specialize (Hm l H). unfold bind.
  destruct (m l) as [[a|e] l1]; simpl in *; [apply Hk; exact Hm | exact Hm].
Qed.

Lemma keeps_finally {A} (I : Log -> Prop) (body : M A) (fin : M unit) :
  keeps I body -> keeps I fin -> keeps I (finally body fin).
Proof.
  intros Hb Hf l H. specialize (Hb l H). unfold finally.
  destruct (body l) as [r l1]. simpl in Hb. specialize (Hf l1 Hb).
  destruct (fin l1) as [[u|e] l2]; exact Hf.
Qed.

Lemma keeps_when (I : Log -> Prop) (b : bool) (m : M unit) :
  keeps I m -> keeps I (when b m).
Proof. destruct b; [trivial | intros _; apply keeps_ret]. Qed.

Lemma unmounted_step (l : Log) (e : Event) (o : Outcome) :
  no_bare_run e -> unmounted host l -> unmounted host (l ++ [(e, o)]).
Proof.
  unfold unmounted, mount_state. intros He H. rewrite fold_left_app, H.
  destruct e as [| argv [cwd|] | | | | | | | | | | | |]; try reflexivity.
  destruct He.
Qed.

Lemma keeps_call (e : Event) (exn : Exn) :
  no_bare_run e -> keeps (unmounted host) (call env e exn).
Proof. intros He l H. apply unmounted_step; assumption. Qed.

Lemma keeps_call_path (e : Event) (exn : Exn) :
  no_bare_run e -> keeps (unmounted host) (call_path env e exn).
Proof. intros He l H. apply unmounted_step; assumption. Qed.

Lemma keeps_emit (e : Event) : no_bare_run e -> keeps (unmounted host) (emit e).
Proof. intros He l H. apply unmounted_step; assumption. Qed.

Hypothesis umount_ok : umount_reliable host env.

Lemma keeps_applyFiles (image : string) (fl : list FileSpec) :
  keeps (unmounted host) (applyFiles host env image fl).
Proof.
  intros l H.
  destruct (failed (respond env l (ERun (mount_cmd host image) None))) eqn:Hm.
  - rewrite (applyFiles_mount_fails host env image fl l Hm). simpl.
    unfold unmounted, mount_state in *. rewrite fold_left_app, H. simpl.
    rewrite Hm. reflexivity.
  - destruct (applyFiles_shape host env image fl l Hm) as (r & copies & o & E & _).
    assert (Ho : failed o = false).
    { unfold applyFiles, bind, run at 1, call at 1 in E. rewrite Hm in E.
      unfold finally, run, call in E.
      destruct (forM fl _ _) as [r' l2]. 
      destruct (failed (respond env l2 (ERun (umount_cmd host) None))) eqn:Hu.
      - rewrite umount_ok in Hu. discriminate.
      - injection E as _ E. 
        change (?x :: copies ++ ?y) with ([x] ++ copies ++ y) in E.
        rewrite !app_assoc in E. apply app_inj_tail in E as [_ E].
        injection E as <-. exact Hu. }
    rewrite E. simpl. change (?x :: copies ++ ?y) with ([x] ++ copies ++ y).
    rewrite !app_assoc. apply mount_state_umount. exact Ho.
Qed.
End ApplyMore.

Ltac keeps_step :=
  first
    [ apply keeps_ret
    | apply keeps_raise
    | apply keeps_lift
    | apply keeps_exists
    | apply keeps_applyFiles; assumption
    | apply keeps_call; exact I
    | apply keeps_call_path; exact I
    | apply keeps_emit; exact I
    | apply keeps_when
    | apply keeps_finally
    | apply keeps_bind; [|intros ?] ].

Section PipelineMore.
Variable host : Host.
Variable env : Env.
Variable c : Config.

(** X12: where the umount command does not fail, neither the image
    assembly nor the binary build leaves an image mounted: if the mount
    point is free before [makeImage] or [makeBin], it is free after, on
    return and on every exception. *)
Theorem pipeline_leaves_unmounted (with_initramfs : bool) (l : Log) :
  umount_reliable host env ->
  unmounted host l ->
  unmounted host (snd (makeImage host env c l))
  /\ unmounted host (snd (makeBin host env c with_initramfs l)).
Proof.
  intros Hu Hl. split.
  - revert l Hl. change (keeps (unmounted host) (makeImage host env c)).
    unfold makeImage, seed, hostInit, fileOverlay, targetInit, runSpecInstall,
      applyOverlay, generateBootScriptOverlay, launchQemu, check_call, copy.
    destruct (host_init c), (files c), (init c), (runSpec c) as [[[cmd|] [p|]]|].
    all: repeat keeps_step.
  - revert l Hl. change (keeps (unmounted host) (makeBin host env c with_initramfs)).
    unfold makeBin, with_tempfile, copy.
    destruct (linux_config c), with_initramfs, (negb (distro c =? "bare")).
    all: repeat keeps_step.
Qed.

(** What [makeImage] logs besides launches, and how often it launches. *)
Lemma makeImage_launches :
  within (fun e => is_launch e = true -> e = ECheckCall (qemu_cmd c false))
         (fun _ => True) is_launch
         (match init c with Some _ => 1 | None => 0 end)
         (makeImage host env c).
Proof.
  unfold makeImage, seed, hostInit, fileOverlay, targetInit, runSpecInstall,
    applyOverlay, applyFiles, generateBootScriptOverlay, launchQemu, check_call,
    copy, run, run_shell.
  destruct (host_init c), (files c) as [fl|], (init c),
    (runSpec c) as [[[cmd|] [p|]]|].
  all: eapply within_budget; [|shelve].
  all: repeat first [ within_step
                    | apply within_forM; intros ? ?
                    | exact I | discriminate | reflexivity ].
  Unshelve. all: simpl; lia.
Qed.

(** X13: in any run of [makeImage], returning or raising, the emulator
    is booted at most once, and not at all when the config has no init
    script; when it is booted, it is qemu on the binary of the config
    with the image as disk. *)
Theorem makeImage_boots_at_most_once (l : Log) :
  exists seg,
    snd (makeImage host env c l) = l ++ seg
    /\ count is_launch seg <= 1
    /\ (init c = None -> count is_launch seg = 0)
    /\ Forall (fun en => is_launch (fst en) = true ->
                         fst en = ECheckCall (qemu_cmd c false)) seg.
Proof.
  destruct (makeImage_launches l) as (seg & E & F & C & _).
  exists seg. split; [exact E|]. split; [destruct (init c); lia|].
  split; [intros Hi; rewrite Hi in C; lia | exact F].
Qed.

(** X14: an image task can be in the graph for a config without a base
    image, but its action cannot run: [makeImage] raises
    [KeyError 'base-img'] before it touches anything. *)
Theorem makeImage_without_base (i : string) (w : list Task) (l : Log) :
  img c = Some i ->
  base_img c = None ->
  In (img_rule host c i) (new_tasks host c)
  /\ (buildable c -> addDep host w c = Ok (w ++ new_tasks host c))
  /\ makeImage host env c l = (Raise (KeyError "base-img"), l).
Proof.
  intros Hi Hb. split; [|split].
  - unfold new_tasks. rewrite Hi. right. apply in_app_iff. right. left. reflexivity.
  - apply addDep_buildable.
  - unfold makeImage, seed, bind, lift. rewrite Hb. reflexivity.
Qed.

(** X15: each state looks for its script right before using it; when
    the script is not there the state raises [ValueError] and runs
    nothing: the host-init script is not executed, no overlay is
    generated for a missing init or run script, the emulator is not
    booted. *)
Theorem missing_script_aborts (i : string) (l : Log) :
  (forall hi, host_init c = Some hi -> path_exists env l hi = false ->
     hostInit env c l
     = (Raise (ValueError ("host_init script " +:+ hi +:+ " not found.")), l))
  /\ (forall s, init c = Some s -> path_exists env l s = false ->
        targetInit host env c i l
        = (Raise (ValueError ("Init script " +:+ s +:+ " not found.")), l))
  /\ (forall p, runSpec c = Some (mkRunSpec None (Some p)) ->
        path_exists env l p = false ->
        runSpecInstall host env c i l
        = (Raise (ValueError ("Run script " +:+ p +:+ " not found.")), l)).
Proof.
  split; [|split].
  - intros hi Hh He. unfold hostInit, bind, exists_. rewrite Hh, He. reflexivity.
  - intros s Hs He. unfold targetInit, bind, exists_. rewrite Hs, He. reflexivity.
  - intros p Hr He. unfold runSpecInstall, bind, exists_, lift. rewrite Hr.
    cbn [command path]. rewrite He. reflexivity.
Qed.

(** X16: a run spec with neither a command nor a path makes the
    run-spec state raise [TypeError] before anything is run; with a
    command, the path of the spec is never used by the state, which
    behaves the same whatever the path, although the graph still lists
    that path among the file dependencies of the image. *)
Theorem runSpec_command_first (c' : Config) (i : string) (l : Log) :
  (runSpec c = Some (mkRunSpec None None) ->
     runSpecInstall host env c i l = (Raise TypeError, l))
  /\ (forall cmd p p',
        runSpec c = Some (mkRunSpec (Some cmd) p) ->
        runSpec c' = Some (mkRunSpec (Some cmd) p') ->
        builder c' = builder c ->
        runSpecInstall host env c' i l = runSpecInstall host env c i l)
  /\ (forall cmd p,
        runSpec c = Some (mkRunSpec (Some cmd) (Some p)) ->
        In p (img_file_deps host c)).
Proof.
  split; [|split].
  - intros Hr. unfold runSpecInstall, bind, lift. rewrite Hr. reflexivity.
  - intros cmd p p' Hr Hr' Hb. unfold runSpecInstall. rewrite Hr, Hr', Hb.
    reflexivity.
  - intros cmd p Hr. unfold img_file_deps. rewrite Hr.
    do 3 (apply in_or_app; right). apply in_or_app. left. left. reflexivity.
Qed.

Lemma boot_hook_snoc (i : string) (l : Log) (e : Event) (o : Outcome) :
  (forall cmd, e <> EShell cmd) ->
  boot_hook host i (l ++ [(e, o)]) = boot_hook host i l.
Proof.
  intros He. unfold boot_hook. rewrite fold_left_app. simpl.
  destruct e; try reflexivity. exfalso. eapply He. reflexivity.
Qed.

(** X17: if the emulator fails during target-init, the pipeline stops
    there with its exception: the clearing overlay is neither generated
    nor applied, and the image keeps the boot hook of the init script. *)
Theorem emulator_failure_keeps_hook (s i d : string) (l l2 : Log) :
  init c = Some s ->
  path_exists env l s = true ->
  respond env l (EGenOverlay (builder c) (Some s)) = Returned d ->
  applyOverlay host env i d (l ++ [(EGenOverlay (builder c) (Some s), Returned d)])
  = (Ok tt, l2) ->
  failed (respond env (l2 ++ [(EPrint ("Launching: " +:+ bin c), Done)])
                  (ECheckCall (qemu_cmd c false))) = true ->
  exists o,
    targetInit host env c i l
    = (Raise CalledProcessError,
       l2 ++ [(EPrint ("Launching: " +:+ bin c), Done);
              (ECheckCall (qemu_cmd c false), o)])
    /\ failed o = true
    /\ boot_hook host i (snd (targetInit host env c i l)) = Some s.
Proof.
  intros Hs He Hg Ha Hq.
  assert (E : targetInit host env c i l
    = (Raise CalledProcessError,
       l2 ++ [(EPrint ("Launching: " +:+ bin c), Done);
              (ECheckCall (qemu_cmd c false),
               respond env (l2 ++ [(EPrint ("Launching: " +:+ bin c), Done)])
                       (ECheckCall (qemu_cmd c false)))])).
  { unfold targetInit. rewrite Hs.
    unfold bind at 1, exists_. rewrite He. cbn [negb when].
    unfold bind at 1, ret. unfold bind at 1, generateBootScriptOverlay, call_path.
    rewrite Hg. unfold bind at 1. rewrite Ha.
    unfold bind at 1, emit. unfold bind at 1, launchQemu, check_call, call.
    rewrite Hq, <- app_assoc. reflexivity. }
  eexists. split; [exact E|]. split; [exact Hq|].
  rewrite E. cbn [snd].
  apply applyOverlay_ok in Ha as (A & -> & HA).
  change [?x; ?y] with ([x] ++ [y]). rewrite !app_assoc.
  rewrite !boot_hook_snoc by discriminate.
  rewrite <- app_assoc. apply hook_after_overlay. exact HA.
Qed.
End PipelineMore.

(** ** More on binary production *)

Section MakeBinMore.
Variable host : Host.
Variable env : Env.
Variable c : Config.

(** X18: a [makeBin] that returns has either built the binary, and then
    its last step copied it to the target of the task it serves ([bin],
    or [bin-initramfs] with the flag, which needs an image), or the
    config has no kernel config, the distro is bare and nothing was
    run. *)
Theorem makeBin_returns (with_initramfs : bool) (l l' : Log) :
  makeBin host env c with_initramfs l = (Ok tt, l') ->
  match linux_config c with
  | Some _ =>
    (exists o,
       last l' = Some (ECopy "riscv-pk/build/bbl"
                             (if with_initramfs then bin c +:+ "-initramfs" else bin c),
                       o)
       /\ failed o = false)
    /\ (with_initramfs = true -> is_Some (img c))
  | None => l' = l /\ distro c = "bare"
  end.
Proof.
  unfold makeBin, with_tempfile, run, copy. intros H.
  destruct (linux_config c) as [lc|].
  - destruct with_initramfs; ok_inv.
    all: split; [eexists; rewrite last_snoc; split; [reflexivity | assumption]|].
    all: try discriminate.
    all: intros _; destruct (img c); [eauto | discriminate].
  - destruct (String.eqb_spec (distro c) "bare") as [Hd|Hd]; simpl in H.
    + unfold ret in H. injection H as <-. auto.
    + discriminate.
Qed.

(** The steps between opening and closing the temporary archive, and
    the steps after closing it, do not touch the temporary file. *)
Lemma cpio_body_within (linuxCfg tmpCpio : string) :
  within (fun e => ~ is_temp_event e) (fun _ => True) unmarked 0
    (i <- lift (getitem "img" (img c)) ;;
     call env (EToCpio i tmpCpio) HelperError ;;
     call env (EConvertInitramfsConfig linuxCfg tmpCpio) HelperError ;;
     run env ["make"; "ARCH=riscv"; "olddefconfig"] (Some (linux_dir host)) ;;
     run env ["make"; "ARCH=riscv"; "vmlinux"; jlevel host] (Some (linux_dir host))).
Proof.
  unfold run. eapply within_budget; [|shelve].
  repeat within_step; try exact I; simpl; tauto.
  Unshelve. simpl. lia.
Qed.

Lemma after_kernel_within (with_initramfs : bool) :
  within (fun e => ~ is_temp_event e) (fun _ => True) unmarked 0
    (have_build <- exists_ env "riscv-pk/build" ;;
     when (negb have_build) (call env (EMkdir "riscv-pk/build") OSError) ;;
     run env ["../configure"; "--host=riscv64-unknown-elf";
              "--with-payload=../../riscv-linux/vmlinux"] (Some "riscv-pk/build") ;;
     run env ["make"; jlevel host] (Some "riscv-pk/build") ;;
     if with_initramfs then copy env "riscv-pk/build/bbl" (bin c +:+ "-initramfs")
     else copy env "riscv-pk/build/bbl" (bin c)).
Proof.
  unfold run, copy. destruct with_initramfs.
  all: eapply within_budget; [|shelve].
  all: repeat within_step; try exact I; simpl; tauto.
  Unshelve. all: simpl; lia.
Qed.

(** A temporary file that could be opened is closed when the body is
    left, by return or by exception. *)
Lemma with_tempfile_run {A} (suffix : string) (body : string -> M A) (l : Log)
      (p : string) :
  respond env l (ETempFile suffix) = Returned p ->
  within (fun e => ~ is_temp_event e) (fun _ => True) unmarked 0 (body p) ->
  exists r seg o,
    with_tempfile env suffix body l
    = (r, l ++ (ETempFile suffix, Returned p) :: seg ++ [(ETempClose p, o)])
    /\ Forall (fun en => ~ is_temp_event (fst en)) seg.
Proof.
  intros Ht Hb. unfold with_tempfile, bind, call_path. rewrite Ht.
  destruct (Hb (l ++ [(ETempFile suffix, Returned p)])) as (seg & E & F & _ & _).
  unfold finally, call.
  destruct (body p _) as [r l1]. simpl in E. subst l1.
  set (o := respond env _ (ETempClose p)).
  exists (if failed o then Raise OSError else r), seg, o.
  split; [|exact F]. rewrite <- !app_assoc. destruct (failed o); reflexivity.
Qed.

(** X19: once [makeBin] has opened its temporary cpio archive, it closes
    it on every path, whatever fails in between (the image missing, the
    cpio conversion, the kernel build): the log holds the opening, then
    steps that do not touch the file, then the closing, and nothing
    touches the file afterwards. *)
Theorem makeBin_closes_tempfile (lc p : string) (l : Log) :
  linux_config c = Some lc ->
  failed (respond env l (ECopy lc (path_join (linux_dir host) ".config"))) = false ->
  respond env
    (l ++ [(ECopy lc (path_join (linux_dir host) ".config"),
            respond env l (ECopy lc (path_join (linux_dir host) ".config")))])
    (ETempFile ".cpio") = Returned p ->
  exists body o rest,
    snd (makeBin host env c true l)
    = l ++ [(ECopy lc (path_join (linux_dir host) ".config"),
             respond env l (ECopy lc (path_join (linux_dir host) ".config")));
            (ETempFile ".cpio", Returned p)]
        ++ body ++ (ETempClose p, o) :: rest
    /\ Forall (fun en => ~ is_temp_event (fst en)) body
    /\ Forall (fun en => ~ is_temp_event (fst en)) rest.
Proof.
  intros Hl Hc Ht. unfold makeBin. rewrite Hl.
  unfold bind at 1, copy at 1, call at 1. rewrite Hc.
  unfold bind at 1.
  destruct (with_tempfile_run ".cpio"
              (fun tmpCpio =>
                 i <- lift (getitem "img" (img c)) ;;
                 call env (EToCpio i tmpCpio) HelperError ;;
                 call env (EConvertInitramfsConfig
                             (path_join (linux_dir host) ".config") tmpCpio)
                      HelperError ;;
                 run env ["make"; "ARCH=riscv"; "olddefconfig"] (Some (linux_dir host)) ;;
                 run env ["make"; "ARCH=riscv"; "vmlinux"; jlevel host]
                     (Some (linux_dir host)))
              _ p Ht
              (cpio_body_within (path_join (linux_dir host) ".config") p))
    as (r & body & o & E & Fb).
  rewrite E.
  assert (Hpre : forall rest,
    ((l ++ [(ECopy lc (path_join (linux_dir host) ".config"),
             respond env l (ECopy lc (path_join (linux_dir host) ".config")))])
     ++ (ETempFile ".cpio", Returned p) :: body ++ [(ETempClose p, o)]) ++ rest
    = l ++ [(ECopy lc (path_join (linux_dir host) ".config"),
             respond env l (ECopy lc (path_join (linux_dir host) ".config")));
            (ETempFile ".cpio", Returned p)]
        ++ body ++ (ETempClose p, o) :: rest).
  { intros rest. rewrite <- !app_assoc. cbn [app]. rewrite <- !app_assoc. reflexivity. }
  destruct r as [[]|e].
  - match goal with |- context [snd (?m ?l0)] =>
      destruct (after_kernel_within true l0) as (rest & Er & Fr & _ & _)
    end.
    exists body, o, rest. rewrite Er, Hpre.
    split; [reflexivity|]. split; [exact Fb | exact Fr].
  - exists body, o, []. split; [|split; [exact Fb | constructor]].
    cbn [snd]. rewrite <- Hpre. symmetry. apply app_nil_r.
Qed.
End MakeBinMore.

(** ** Test points of the further properties *)

Lemma graph0_built : buildDepGraph host0 cfgs0 = Ok graph0.
Proof. vm_compute. reflexivity. Qed.

Lemma host0_not_distro (k : string) :
  k <> "br" -> k <> "fedora" -> k <> "bare" -> ~ In k (distros host0).
Proof. intros H1 H2 H3 [<-|[<-|[<-|[]]]]; congruence. Qed.

Lemma addDep_error_iff_witness :
  addDep host0 [] initramfs_noimg_cfg = Raise (KeyError "img").
Proof.
  apply (proj1 (addDep_error_iff host0 [] initramfs_noimg_cfg) (KeyError "img")).
  repeat split.
Defined.

Lemma buildDepGraph_tasks_witness :
  In (img_rule host0 job_cfg "par-j0.img") graph0.
Proof.
  apply (proj2 (buildDepGraph_tasks host0 cfgs0 graph0 graph0_built _)).
  right. exists "par.json", parent_cfg, job_cfg.
  split; [vm_compute; reflexivity|].
  split; [apply host0_not_distro; discriminate|].
  split; [right; left; reflexivity|].
  right. left. reflexivity.
Defined.

Lemma graph_targets_are_names_witness :
  targets (bin_rule parent_cfg) = [task_name (bin_rule parent_cfg)].
Proof.
  apply (graph_targets_are_names host0 cfgs0 graph0 _ graph0_built).
  vm_compute. do 6 right. left. reflexivity.
Defined.

Lemma buildDepGraph_missing_distro_witness :
  exists d, buildDepGraph host0 cfgs_no_fedora = Raise (KeyError d).
Proof.
  destruct (buildDepGraph_missing_distro host0 cfgs_no_fedora "fedora")
    as (d & _ & _ & H).
  - right. left. reflexivity.
  - vm_compute. reflexivity.
  - exists d. exact H.
Defined.

Lemma handleBuild_targets_defined_witness :
  exists g ts,
    snd (handleBuild host0 (mkArgs "par.json" Build (Some "par-j0") false false) cfgs0 [])
    = [] ++ [(EDoit g ts, Done)]
    /\ forall t, In t ts ->
         exists task, In task g /\ task_name task = t /\ targets task = [t].
Proof.
  apply (handleBuild_targets_defined host0
           (mkArgs "par.json" Build (Some "par-j0") false false) cfgs0 []).
  - apply host0_not_distro; discriminate.
  - vm_compute. reflexivity.
Defined.

Lemma launch_job_witness :
  main host0 env_ok (mkArgs "par.json" Launch (Some "j0") false false) cfgs0 []
  = launchQemu env_ok job_cfg false [].
Proof.
  refine (launch_job host0 env_ok (mkArgs "par.json" Launch (Some "j0") false false)
            cfgs0 parent_cfg [("par-j0", job_cfg)] "j0" [] _ _ _ _ _ _ _);
    first [reflexivity | discriminate].
Defined.

Lemma build_unknown_job_witness :
  main host0 env_ok (mkArgs "par.json" Build (Some "zz") false false) cfgs0 []
  = (Raise (KeyError "par-zz"), []).
Proof.
  refine (build_unknown_job host0 env_ok
            (mkArgs "par.json" Build (Some "zz") false false)
            cfgs0 parent_cfg [("par-j0", job_cfg)] "zz" graph0 [] _ _ _ _ _ _ _ _);
    first [exact graph0_built | reflexivity | discriminate].
Defined.

Lemma main_job_without_value_witness :
  main host0 env_ok (mkArgs "par.json" Build None false false) cfgs0 []
  = (Raise TypeError, []).
Proof.
  apply (main_job_without_value host0 env_ok
           (mkArgs "par.json" Build None false false) cfgs0 parent_cfg []).
  - vm_compute. reflexivity.
  - reflexivity.
Defined.

Lemma launch_spike_base_witness :
  main host0 env_ok (mkArgs "full.json" Launch (Some "all") true true) cfgs0 []
  = check_call env_ok (spike_cmd full_cfg) [].
Proof.
  refine (proj1 (launch_spike_base host0 env_ok
                   (mkArgs "full.json" Launch (Some "all") true true)
                   cfgs0 full_cfg [] _ _ _ _) _); reflexivity.
Defined.

Lemma build_initramfs_without_image_witness :
  main host0 env_ok (mkArgs "meta.json" Build (Some "all") true false) cfgs_meta []
  = (Raise (KeyError "img"), []).
Proof.
  refine (build_initramfs_without_image host0 env_ok
            (mkArgs "meta.json" Build (Some "all") true false)
            cfgs_meta meta_cfg [] _ _ _ _ _ _ _);
    first [ reflexivity
          | apply host0_not_distro; discriminate
          | intros d [<-|[<-|[<-|[]]]]; vm_compute; eauto ].
Defined.

Lemma applyFiles_copies_in_order_witness :
  exists r done rest good bad o,
    [mkFileSpec "a" "/etc"; mkFileSpec "b" "/root"] = done ++ rest
    /\ applyFiles host0 env_rsync_fails "w.img"
                  [mkFileSpec "a" "/etc"; mkFileSpec "b" "/root"] []
       = (r, [] ++ (ERun (mount_cmd host0 "w.img") None, Done)
                :: (good ++ bad) ++ [(ERun (umount_cmd host0) None, o)]).
Proof.
  destruct (applyFiles_copies_in_order host0 env_rsync_fails "w.img"
              [mkFileSpec "a" "/etc"; mkFileSpec "b" "/root"] [] eq_refl)
    as (r & done & rest & good & bad & o & H1 & H2 & _).
  exists r, done, rest, good, bad, o. split; [exact H1 | exact H2].
Defined.

Lemma pipeline_leaves_unmounted_witness :
  unmounted host0 (snd (makeImage host0 env_rsync_fails full_cfg []))
  /\ unmounted host0 (snd (makeBin host0 env_rsync_fails full_cfg true [])).
Proof.
  apply (pipeline_leaves_unmounted host0 env_rsync_fails full_cfg true []).
  - intros l. reflexivity.
  - reflexivity.
Defined.

Lemma makeImage_boots_at_most_once_witness :
  exists seg,
    snd (makeImage host0 env_ok full_cfg []) = [] ++ seg
    /\ count is_launch seg <= 1.
Proof.
  destruct (makeImage_boots_at_most_once host0 env_ok full_cfg [])
    as (seg & H1 & H2 & _).
  exists seg. split; [exact H1 | exact H2].
Defined.

Lemma makeImage_without_base_witness :
  makeImage host0 env_ok orphan_img_cfg [] = (Raise (KeyError "base-img"), []).
Proof.
  exact (proj2 (proj2 (makeImage_without_base host0 env_ok orphan_img_cfg
                         "o.img" [] [] eq_refl eq_refl))).
Defined.

Lemma missing_script_aborts_witness :
  hostInit env_no_files full_cfg []
  = (Raise (ValueError "host_init script host.sh not found."), []).
Proof.
  exact (proj1 (missing_script_aborts host0 env_no_files full_cfg "full.img" [])
               "host.sh" eq_refl eq_refl).
Defined.

Lemma runSpec_command_first_witness :
  runSpecInstall host0 env_ok job_cfg_path "par-j0.img" []
  = runSpecInstall host0 env_ok job_cfg "par-j0.img" [].
Proof.
  exact (proj1 (proj2 (runSpec_command_first host0 env_ok job_cfg job_cfg_path
                         "par-j0.img" []))
               "echo hi" None (Some "unused.sh") eq_refl eq_refl eq_refl).
Defined.

Lemma emulator_failure_keeps_hook_witness :
  boot_hook host0 "full.img"
            (snd (targetInit host0 env_qemu_fails full_cfg "full.img" []))
  = Some "init.sh".
Proof.
  destruct (emulator_failure_keeps_hook host0 env_qemu_fails full_cfg
              "init.sh" "full.img" "/ovl/init.sh" []
              (snd (applyOverlay host0 env_qemu_fails "full.img" "/ovl/init.sh"
                      ([] ++ [(EGenOverlay (builder full_cfg) (Some "init.sh"),
                               Returned "/ovl/init.sh")])))
              eq_refl eq_refl eq_refl eq_refl eq_refl)
    as (o & _ & _ & H).
  exact H.
Defined.

Lemma makeBin_returns_witness :
  exists o,
    last (snd (makeBin host0 env_ok bare_linux_cfg false []))
    = Some (ECopy "riscv-pk/build/bbl" "bl-bin", o)
    /\ failed o = false.
Proof.
  exact (proj1 (makeBin_returns host0 env_ok bare_linux_cfg false []
                  (snd (makeBin host0 env_ok bare_linux_cfg false [])) eq_refl)).
Defined.

Lemma makeBin_closes_tempfile_witness :
  exists body o rest,
    snd (makeBin host0 env_make_fails full_cfg true [])
    = [] ++ [(ECopy "linux.cfg" (path_join (linux_dir host0) ".config"), Done);
             (ETempFile ".cpio", Returned "/tmp/t.cpio")]
         ++ body ++ (ETempClose "/tmp/t.cpio", o) :: rest.
Proof.
  destruct (makeBin_closes_tempfile host0 env_make_fails full_cfg
              "linux.cfg" "/tmp/t.cpio" [] eq_refl eq_refl eq_refl)
    as (body & o & rest & H & _).
  exists body, o, rest. exact H.
Defined.
